(** * keepalive.js: the ScavengerMine ten-minute heartbeat userscript

    A shallow embedding of [src/tampermonkey/keepalive.js] and the
    properties of its heartbeat controller.

    - [JsString]: strings as UTF-16 code units, and the regular
      expressions of the script written out as matchers.
    - [Dom]: the part of the DOM the script reads.
    - The script itself, in a state-and-exception monad over its host
      (the pages it observes and the wall clock it reads).
    - The properties, C1 to C10. *)

From Stdlib Require Import List Bool Arith ZArith NArith Lia String Ascii.
Import ListNotations.

(* ================================================================= *)
(** ** Strings *)

Module JsString.

(** A JavaScript string is a sequence of UTF-16 code units. *)
Definition jsstring := list N.

(** String literals of the source, all of them ASCII. *)
Definition lit (s : string) : jsstring :=
  map N_of_ascii (list_ascii_of_string s).

Definition is_upper (c : N) : bool := ((65 <=? c) && (c <=? 90))%N.
Definition is_lower (c : N) : bool := ((97 <=? c) && (c <=? 122))%N.

(** [\d] *)
Definition is_digit (c : N) : bool := ((48 <=? c) && (c <=? 57))%N.

(** [\w], which decides [\b]: without the [u] flag the class is
    [A-Za-z0-9_] also under [i]. *)
Definition is_word (c : N) : bool :=
  is_upper c || is_lower c || is_digit c || (c =? 95)%N.

(** [\s]: WhiteSpace and LineTerminator of ECMAScript. *)
Definition is_space (c : N) : bool :=
  (((9 <=? c) && (c <=? 13)) || (c =? 32) || (c =? 160) || (c =? 5760)
   || ((8192 <=? c) && (c <=? 8202)) || (c =? 8232) || (c =? 8233)
   || (c =? 8239) || (c =? 8287) || (c =? 12288) || (c =? 65279))%N.

(** Canonicalize of a regular expression with the [i] flag and no [u]
    flag. The engine upper-cases a code unit and keeps the original
    when that would turn a non-ASCII unit into an ASCII one, so a
    non-ASCII unit never canonicalises to an ASCII unit. The patterns
    of the script are ASCII; against them only the ASCII part of the
    mapping decides a comparison, and that part is written here. *)
Definition canon (c : N) : N := if is_lower c then (c - 32)%N else c.

Definition ci_eqb (p c : N) : bool := (canon p =? canon c)%N.

(** Matches the literal [pat] case-insensitively at the head of [s]
    and returns what follows it. *)
Fixpoint match_ci (pat s : jsstring) : option jsstring :=
  match pat with
  | [] => Some s
  | p :: pat' =>
      match s with
      | [] => None
      | c :: s' => if ci_eqb p c then match_ci pat' s' else None
      end
  end.

(** [/pat/i.test(s)] for a literal pattern: a match at some index. *)
Fixpoint test_ci (pat s : jsstring) : bool :=
  match match_ci pat s with
  | Some _ => true
  | None => match s with
            | [] => false
            | _ :: s' => test_ci pat s'
            end
  end.

(** [String.prototype.toLowerCase], as far as an ASCII needle can
    tell. Code units A-Z go to a-z; U+0130 goes to [i] followed by
    U+0307 and U+212A (Kelvin sign) to [k], the only non-ASCII code
    units whose lower case holds an ASCII unit. Every other non-ASCII
    unit lower-cases to non-ASCII units and is left as it is here,
    where the engine may change it (an accented capital to its small
    letter). The script only asks whether one of its two needles,
    "start session" and "stop session", occurs in the result, which
    units outside ASCII never decide; for a needle that is not ASCII
    this mapping is not the engine's. *)
Definition lower_unit (c : N) : jsstring :=
  if is_upper c then [(c + 32)%N]
  else if (c =? 304)%N then [105%N; 775%N]
  else if (c =? 8490)%N then [107%N]
  else [c].

Definition toLowerCase (s : jsstring) : jsstring := flat_map lower_unit s.

Fixpoint startsWith (needle s : jsstring) : bool :=
  match needle with
  | [] => true
  | p :: needle' =>
      match s with
      | [] => false
      | c :: s' => (p =? c)%N && startsWith needle' s'
      end
  end.

(** [s.includes(needle)] *)
Fixpoint includes (s needle : jsstring) : bool :=
  startsWith needle s ||
  match s with
  | [] => false
  | _ :: s' => includes s' needle
  end.

(** Skips the longest prefix whose units satisfy [cls]: a greedy
    [cls*]. In both patterns of the script the star is followed by a
    digit, which is outside the class, so giving back part of the
    prefix can never help and the greedy choice is the only one. *)
Fixpoint skip (cls : N -> bool) (s : jsstring) : jsstring :=
  match s with
  | c :: s' => if cls c then skip cls s' else s
  | [] => []
  end.

(** [\d{2}:\d{2}:\d{2}] at the head of [s]: the eight code units
    matched and the rest. *)
Definition match_hms (s : jsstring) : option (jsstring * jsstring) :=
  match s with
  | a :: b :: c1 :: c :: d :: c2 :: e :: f :: rest =>
      if is_digit a && is_digit b && (c1 =? 58)%N
         && is_digit c && is_digit d && (c2 =? 58)%N
         && is_digit e && is_digit f
      then Some ([a; b; c1; c; d; c2; e; f], rest)
      else None
  | _ => None
  end.

(** The optional group [(?::\d{2})?]: greedy, and last in its
    pattern, so it is taken whenever it matches. *)
Definition match_opt_field (s : jsstring) : jsstring :=
  match s with
  | c :: a :: b :: _ =>
      if (c =? 58)%N && is_digit a && is_digit b then [c; a; b] else []
  | _ => []
  end.

(** [\b] between the unit before the index ([prev], none at index 0)
    and the string from the index on. *)
Definition word_boundary (prev : option N) (s : jsstring) : bool :=
  let before := match prev with Some c => is_word c | None => false end in
  let after := match s with c :: _ => is_word c | [] => false end in
  xorb before after.

(** [/\btime left:\s*(\d{2}:\d{2}:\d{2})/i] anchored at one index:
    the capture group 1. *)
Definition time_left_at (prev : option N) (s : jsstring) : option jsstring :=
  if word_boundary prev s then
    match match_ci (lit "time left:") s with
    | Some r =>
        match match_hms (skip is_space r) with
        | Some (g, _) => Some g
        | None => None
        end
    | None => None
    end
  else None.

Fixpoint time_left_from (prev : option N) (s : jsstring) : option jsstring :=
  match time_left_at prev s with
  | Some g => Some g
  | None => match s with
            | [] => None
            | c :: s' => time_left_from (Some c) s'
            end
  end.

(** [/\btime left:\s*(\d{2}:\d{2}:\d{2})/i.exec(txt)]: group 1 of the
    leftmost match, [None] for [null]. *)
Definition exec_time_left (txt : jsstring) : option jsstring :=
  time_left_from None txt.

(** [/next challenge in[:\s]*(\d{2}:\d{2}:\d{2}(?::\d{2})?)/i]
    anchored at one index. *)
Definition next_challenge_at (s : jsstring) : option jsstring :=
  match match_ci (lit "next challenge in") s with
  | Some r =>
      match match_hms (skip (fun c => (c =? 58)%N || is_space c) r) with
      | Some (g, rest) => Some (g ++ match_opt_field rest)
      | None => None
      end
  | None => None
  end.

(** [....exec(txt)]: group 1 of the leftmost match. *)
Fixpoint exec_next_challenge (txt : jsstring) : option jsstring :=
  match next_challenge_at txt with
  | Some g => Some g
  | None => match txt with
            | [] => None
            | _ :: txt' => exec_next_challenge txt'
            end
  end.

(** [s.split(":")] *)
Fixpoint split_colon_acc (cur : jsstring) (s : jsstring) : list jsstring :=
  match s with
  | [] => [rev cur]
  | c :: s' => if (c =? 58)%N then rev cur :: split_colon_acc [] s'
               else split_colon_acc (c :: cur) s'
  end.

Definition split_colon (s : jsstring) : list jsstring := split_colon_acc [] s.

(** [Number] on a string of decimal digits, the only strings the
    script converts (the fields of a capture): its decimal value, 0
    for the empty string. [None] stands for [NaN], which no capture
    produces. *)
Fixpoint digits_value (acc : Z) (s : jsstring) : option Z :=
  match s with
  | [] => Some acc
  | c :: s' => if is_digit c
               then digits_value (10 * acc + (Z.of_N c - 48)) s'
               else None
  end.

Definition Number (s : jsstring) : option Z := digits_value 0 s.

End JsString.

Import JsString.

(* ================================================================= *)
(** ** The DOM the script reads *)

Module Dom.

(** Tag names: the ones the selectors of the script and [document.body]
    tell apart, and [OTHER] for the rest. *)
Inductive tag :=
| HTML | BODY | FRAMESET | DIV | SPAN | LI | SECTION | BUTTON | OTHER.

Scheme Equality for tag.

Set Warnings "-register-all".

(** The interface an element implements. An HTML element has the
    method [click()] and, as a button, the property [disabled]. An
    element of another namespace (SVG, MathML) has neither, also when
    its name is [button]: its [disabled] reads [undefined] and [click]
    is not a function. *)
Inductive interface :=
| HTMLElement (disabled : bool)
| ForeignElement.

(** An element carries its tag name, its interface and its child
    nodes. *)
Inductive node :=
| Element (tagName : tag) (iface : interface) (childNodes : list node)
| Text (data : jsstring).

Set Warnings "register-all".

(** [node.textContent]: the data of the text descendants in tree order. *)
Fixpoint textContent (n : node) : jsstring :=
  match n with
  | Element _ _ cs => flat_map textContent cs
  | Text d => d
  end.

(** An element of a document: the element and its chain of ancestors,
    the parent first. *)
Record elem := mkElem { self : node; ancestors : list node }.

Definition tag_of (n : node) : option tag :=
  match n with
  | Element t _ _ => Some t
  | Text _ => None
  end.

Definition has_tag (ts : list tag) (n : node) : bool :=
  match tag_of n with
  | Some t => existsb (tag_beq t) ts
  | None => false
  end.

(** The elements below and including [n], in tree order. *)
Fixpoint elements_of (anc : list node) (n : node) : list elem :=
  match n with
  | Element _ _ cs => mkElem n anc :: flat_map (elements_of (n :: anc)) cs
  | Text _ => []
  end.

(** The element is in the HTML namespace. *)
Definition is_html (n : node) : bool :=
  match n with
  | Element _ (HTMLElement _) _ => true
  | _ => false
  end.

Record Document := mkDocument { documentElement : node }.

(** [document.querySelectorAll(sel)] for a selector that is a list of
    tag names. *)
Definition querySelectorAll (d : Document) (sel : list tag) : list elem :=
  filter (fun e => has_tag sel (self e)) (elements_of [] (documentElement d)).

(** [el.closest("div")]: the element itself or its nearest ancestor
    with the tag, [None] for [null]. *)
Definition closest (t : tag) (e : elem) : option node :=
  find (has_tag [t]) (self e :: ancestors e).

(** [el.parentElement] *)
Definition parentElement (e : elem) : option node := hd_error (ancestors e).

(** [document.body]: the first [body] or [frameset] child of the
    [html] root element, [None] for [null]. *)
Definition body (d : Document) : option node :=
  match documentElement d with
  | Element HTML (HTMLElement _) cs =>
      find (fun c => has_tag [BODY; FRAMESET] c && is_html c) cs
  | _ => None
  end.

(** [el.disabled] as a condition: [undefined] counts as false. *)
Definition disabled_of (e : elem) : bool :=
  match self e with
  | Element _ (HTMLElement d) _ => d
  | _ => false
  end.

(** [el.click] is a function. *)
Definition has_click (e : elem) : bool := is_html (self e).

End Dom.

Import Dom.

(* ================================================================= *)
(** ** The script *)

(** The host of the script: the page as it stands after each suspension
    of the script, and the successive readings of the wall clock
    ([Date.now()], [new Date()]). The script is deterministic; all its
    behaviours are obtained by letting the host range over all such
    sequences. *)
Record Host := mkHost { page : nat -> Document; clock : nat -> Z }.

(** Console lines, one constructor per [console.log] of the source. *)
Inductive logline :=
| HeartbeatActive
| ChallengeRunning (remaining : jsstring)
| ChallengeAppearsActive
| NextChallengeIsReady
| StartingSession
| SessionStarted
| StartNotConfirmed
| ReloadGuardActive
| Reloading (reason : jsstring) (date : Z)
| SessionRunning
| NextChallengeReadyProceeding
| StartNotVisible.

(** What the script does to the outside. [Reload] is
    [location.reload()]; it records the value [lastReloadAt] holds when
    the call is made, the instant the script attributes to the reload. *)
Inductive event :=
| Log (l : logline)
| Click (target : elem)
| SetTimeout (ms : Z)
| Reload (stamp : Z).

(** The state the script runs in: its one variable [lastReloadAt], how
    many times it has been suspended and how many times it has read
    the clock (the positions in the host's sequences), and what it has
    done so far. *)
Record World := mkWorld {
  lastReloadAt : Z;
  suspensions : nat;
  clock_reads : nat;
  trace : list event
}.

Inductive error := TypeError.

Inductive outcome (A : Type) :=
| Return (a : A)
| Throw (e : error).

Arguments Return {A} a.
Arguments Throw {A} e.

(** Computations of the script: state passing, with exceptions. *)
Definition M (A : Type) := World -> outcome A * World.

Definition ret {A} (a : A) : M A := fun w => (Return a, w).

Definition bind {A B} (c : M A) (k : A -> M B) : M B :=
  fun w => match c w with
           | (Return a, w') => k a w'
           | (Throw e, w') => (Throw e, w')
           end.

Definition throw {A} (e : error) : M A := fun w => (Throw e, w).

Declare Scope js_scope.
Delimit Scope js_scope with js.
Notation "x <- c ;; k" := (bind c (fun x => k))
  (at level 61, c at next level, right associativity) : js_scope.
Notation "c ;; k" := (bind c (fun _ => k))
  (at level 61, right associativity) : js_scope.
Open Scope js_scope.

Local Open Scope Z_scope.

Definition HEARTBEAT_MS : Z := 10 * 60000.
Definition BOOT_GRACE_MS : Z := 5000.
Definition START_WAIT_LOOPS : nat := 16%nat.
Definition START_WAIT_STEPMS : Z := 500.
Definition RELOAD_GUARD_MS : Z := 60000.

(** [let lastReloadAt = 0], with nothing done yet. *)
Definition initial : World := mkWorld 0 0 0 [].

Section Script.

Variable host : Host.

(** The [document] the script sees at this point of its run. *)
Definition document (w : World) : Document := page host (suspensions w).

(** Reading the global [document]. *)
Definition get_document : M Document := fun w => (Return (document w), w).

(** [console.log(...)] *)
Definition log (l : logline) : M unit :=
  fun w => (Return tt,
            mkWorld (lastReloadAt w) (suspensions w) (clock_reads w)
                    (trace w ++ [Log l])).

(** [Date.now()], and [new Date()]: the next reading of the clock. *)
Definition now : M Z :=
  fun w => (Return (clock host (clock_reads w)),
            mkWorld (lastReloadAt w) (suspensions w) (S (clock_reads w))
                    (trace w)).

(** [await new Promise(r => setTimeout(r, ms))]: the script is
    suspended and resumes on the host's next page. *)
Definition sleep (ms : Z) : M unit :=
  fun w => (Return tt,
            mkWorld (lastReloadAt w) (S (suspensions w)) (clock_reads w)
                    (trace w ++ [SetTimeout ms])).

(** [location.reload()] *)
Definition location_reload : M unit :=
  fun w => (Return tt,
            mkWorld (lastReloadAt w) (suspensions w) (clock_reads w)
                    (trace w ++ [Reload (lastReloadAt w)])).

Definition get_lastReloadAt : M Z := fun w => (Return (lastReloadAt w), w).

Definition set_lastReloadAt (t : Z) : M unit :=
  fun w => (Return tt, mkWorld t (suspensions w) (clock_reads w) (trace w)).

(** Reading a property of, or calling a method on, a value that may be
    [null] or [undefined] raises a TypeError there. *)
Definition prop {A B} (f : A -> B) (o : option A) : M B :=
  match o with
  | Some a => ret (f a)
  | None => throw TypeError
  end.

(** [el.click()]: a call of what is not a function raises a TypeError. *)
Definition click (o : option elem) : M unit :=
  match o with
  | Some b =>
      if has_click b
      then fun w => (Return tt,
                     mkWorld (lastReloadAt w) (suspensions w)
                             (clock_reads w) (trace w ++ [Click b]))
      else throw TypeError
  | None => throw TypeError
  end.

(** [a || b] on values that are objects or [null]. *)
Definition orelse {A} (a b : option A) : option A :=
  match a with
  | Some _ => a
  | None => b
  end.

Definition truthy {A} (o : option A) : bool :=
  match o with
  | Some _ => true
  | None => false
  end.

(** [findBtn(txt)]: the first element matched by the selector
    [button] whose lower-cased text includes the lower-cased [txt];
    [None] for [undefined]. The script calls it on ASCII texts only. *)
Definition findBtn_in (d : Document) (txt : jsstring) : option elem :=
  find (fun b => includes (toLowerCase (textContent (self b))) (toLowerCase txt))
       (querySelectorAll d [BUTTON]).

Definition findBtn (txt : jsstring) : M (option elem) :=
  d <- get_document ;;
  ret (findBtn_in d txt).

(** [row.closest("div") || row.parentElement || document.body] *)
Definition scope_in (d : Document) (row : elem) : option node :=
  orelse (closest DIV row) (orelse (parentElement row) (body d)).

(** Sums of numbers that may be [NaN], and [x > 0], [x === 0]. *)
Definition js_add (a b : option Z) : option Z :=
  match a, b with
  | Some x, Some y => Some (x + y)
  | _, _ => None
  end.

Definition js_gt0 (a : option Z) : bool :=
  match a with
  | Some x => 0 <? x
  | None => false
  end.

Definition js_is0 (a : option Z) : bool :=
  match a with
  | Some x => x =? 0
  | None => false
  end.

(** The rows [isSolving] filters out of the document. *)
Definition solving_rows (d : Document) : list elem :=
  filter (fun el => test_ci (lit "finding a solution") (textContent (self el)))
         (querySelectorAll d [DIV; SPAN; LI; SECTION]).

(** The [for (const row of rows)] loop of [isSolving] and what follows
    it. *)
Fixpoint isSolving_loop (rows : list elem) : M bool :=
  match rows with
  | [] => log ChallengeAppearsActive ;; ret true
  | row :: rest =>
      d <- get_document ;;
      txt <- prop textContent (scope_in d row) ;;
      match exec_time_left txt with
      | Some m1 =>
          let parts := map Number (split_colon m1) in
          let h := nth 0 parts None in
          let m2 := nth 1 parts None in
          let s := nth 2 parts None in
          if js_gt0 (js_add (js_add h m2) s)
          then log (ChallengeRunning m1) ;; ret true
          else isSolving_loop rest
      | None => isSolving_loop rest
      end
  end.

Definition isSolving : M bool :=
  d <- get_document ;;
  let rows := solving_rows d in
  if (List.length rows =? 0)%nat then ret false
  else isSolving_loop rows.

(** The rows [isNextChallengeReady] filters out of the document. *)
Definition next_rows (d : Document) : list elem :=
  filter (fun el => test_ci (lit "next challenge in") (textContent (self el)))
         (querySelectorAll d [DIV; SPAN]).

Fixpoint isNextChallengeReady_loop (rows : list elem) : M bool :=
  match rows with
  | [] => ret false
  | row :: rest =>
      d <- get_document ;;
      txt <- prop textContent (scope_in d row) ;;
      match exec_next_challenge txt with
      | Some timeStr =>
          let parts := map Number (split_colon timeStr) in
          let allZero := forallb js_is0 parts in
          if allZero
          then log NextChallengeIsReady ;; ret true
          else isNextChallengeReady_loop rest
      | None => isNextChallengeReady_loop rest
      end
  end.

Definition isNextChallengeReady : M bool :=
  d <- get_document ;;
  let rows := next_rows d in
  if (List.length rows =? 0)%nat then ret false
  else isNextChallengeReady_loop rows.

(** The confirmation loop of [tryStart] with [n] iterations left
    ([n = START_WAIT_LOOPS - i]) and what follows it. *)
Fixpoint tryStart_loop (n : nat) : M bool :=
  match n with
  | O => log StartNotConfirmed ;; ret false
  | S n' =>
      sleep START_WAIT_STEPMS ;;
      stop <- findBtn (lit "stop session") ;;
      if truthy stop
      then log SessionStarted ;; ret true
      else tryStart_loop n'
  end.

Definition tryStart : M bool :=
  start <- findBtn (lit "start session") ;;
  if negb (truthy start) then ret false
  else
    dis <- prop disabled_of start ;;
    if dis then ret false
    else
      log StartingSession ;;
      click start ;;
      tryStart_loop START_WAIT_LOOPS.

Definition safeReload (reason : jsstring) : M unit :=
  t <- now ;;
  last <- get_lastReloadAt ;;
  if t - last <? RELOAD_GUARD_MS
  then log ReloadGuardActive ;; ret tt
  else
    date <- now ;;
    log (Reloading reason date) ;;
    t' <- now ;;
    set_lastReloadAt t' ;;
    location_reload.

Definition heartbeat : M unit :=
  stop <- findBtn (lit "stop session") ;;
  if truthy stop
  then log SessionRunning ;; ret tt
  else
    nextReady <- isNextChallengeReady ;;
    if nextReady
    then
      log NextChallengeReadyProceeding ;;
      started <- tryStart ;;
      if negb started
      then
        log StartNotVisible ;;
        safeReload (lit "Next challenge ready but Start not visible")
      else ret tt
    else
      solving <- isSolving ;;
      if solving then ret tt
      else
        started <- tryStart ;;
        if negb started
        then
          log StartNotVisible ;;
          safeReload (lit "session stopped and Start not visible")
        else ret tt.

(** A timer callback: the host resumes the script on its next page and
    runs [heartbeat()]. The promise the call returns is dropped, so an
    exception in one tick does not reach the next. A tick has run to
    its end when the next one fires: its waits add up to 8 s and the
    timer fires every ten minutes. *)
Definition tick : M unit :=
  fun w =>
    let w1 := mkWorld (lastReloadAt w) (S (suspensions w)) (clock_reads w)
                      (trace w) in
    (Return tt, snd (heartbeat w1)).

(** One run of the script, from its injection into the page on: the
    banner, the tick after [BOOT_GRACE_MS], and the ticks of
    [setInterval(heartbeat, HEARTBEAT_MS)], [n] of them. The page a
    reload brings up runs the script anew, from [initial]. *)
Fixpoint interval (n : nat) : M unit :=
  match n with
  | O => ret tt
  | S n' => interval n' ;; tick
  end.

Definition main (n : nat) : M unit :=
  log HeartbeatActive ;; tick ;; interval n.

End Script.

(* ================================================================= *)
(** ** Vocabulary of the properties *)

Definition is_reload (e : event) : bool :=
  match e with
  | Reload _ => true
  | _ => false
  end.

Definition is_click (e : event) : bool :=
  match e with
  | Click _ => true
  | _ => false
  end.

(** The stamps of the reloads of a trace, oldest first. *)
Fixpoint reload_stamps (tr : list event) : list Z :=
  match tr with
  | [] => []
  | Reload t :: tr' => t :: reload_stamps tr'
  | _ :: tr' => reload_stamps tr'
  end.

(** Any two reloads lie at least the guard window apart. *)
Definition spaced (stamps : list Z) : Prop :=
  forall i j a b, (i < j)%nat ->
    nth_error stamps i = Some a -> nth_error stamps j = Some b ->
    RELOAD_GUARD_MS <= b - a.

(** The wall clock does not run backwards from one reading to the next. *)
Definition clock_monotone (h : Host) : Prop :=
  forall i j, (i <= j)%nat -> clock h i <= clock h j.

(** The reading [safeReload] stores is not earlier than the reading it
    tested, two readings before: the clock has not been set back in
    between. *)
Definition clock_steady (h : Host) : Prop :=
  forall i, clock h i <= clock h (S (S i)).

(** The document is an HTML page: its root element is [html]. *)
Definition html_rooted (d : Document) : Prop :=
  tag_of (documentElement d) = Some HTML.

(** Some button of the document has a label that contains [txt], case
    apart. *)
Definition button_labelled (d : Document) (txt : jsstring) : Prop :=
  exists b, In b (querySelectorAll d [BUTTON]) /\
            includes (toLowerCase (textContent (self b))) (toLowerCase txt) = true.

(** The fields of a capture are all zero: [parts.every(p => p === 0)]. *)
Definition all_zero (timeStr : jsstring) : bool :=
  forallb js_is0 (map Number (split_colon timeStr)).

(** The text of the scope of a row, when it has one. *)
Definition scope_text (d : Document) (row : elem) : option jsstring :=
  option_map textContent (scope_in d row).

(** The scope of the row shows "next challenge in" with a time that
    parses to all zeros. *)
Definition row_due (d : Document) (row : elem) : bool :=
  match scope_text d row with
  | Some txt =>
      match exec_next_challenge txt with
      | Some timeStr => all_zero timeStr
      | None => false
      end
  | None => false
  end.

(** Some "next challenge in" row of the page is due. *)
Definition next_challenge_due (d : Document) : bool :=
  existsb (row_due d) (next_rows d).

(** A console line of [isSolving]. *)
Definition is_solving_line (e : event) : bool :=
  match e with
  | Log ChallengeAppearsActive => true
  | Log (ChallengeRunning _) => true
  | _ => false
  end.

(** [w'] differs from [w] by console lines only. *)
Definition logs_only (w w' : World) : Prop :=
  lastReloadAt w' = lastReloadAt w /\
  suspensions w' = suspensions w /\
  clock_reads w' = clock_reads w /\
  exists ls, trace w' = trace w ++ map Log ls.

(** From [w] to [w'] the timestamp is untouched and no reload is issued. *)
Definition no_reload (w w' : World) : Prop :=
  lastReloadAt w' = lastReloadAt w /\
  exists evs, trace w' = trace w ++ evs /\
              Forall (fun e => is_reload e = false) evs.

(** What the guard maintains: every reload issued so far carries a
    stamp no later than [lastReloadAt], and the reloads are spaced. *)
Definition guarded (w : World) : Prop :=
  Forall (fun t => t <= lastReloadAt w) (reload_stamps (trace w)) /\
  spaced (reload_stamps (trace w)).


(** The guard's invariant carries over from [w] to [w']. *)
Definition keeps_guard (w w' : World) : Prop := guarded w -> guarded w'.

(** Every run of [c] relates the world before to the world after. *)
Definition respects {A} (R : World -> World -> Prop) (c : M A) : Prop :=
  forall w, R w (snd (c w)).

(** The page after [n] suspensions shows a stop button. *)
Definition stop_seen (h : Host) (n : nat) : bool :=
  truthy (findBtn_in (page h n) (lit "stop session")).

(** [World] with one more console line. *)
Definition logged (l : logline) (w : World) : World :=
  mkWorld (lastReloadAt w) (suspensions w) (clock_reads w) (trace w ++ [Log l]).

(** The branch both paths of [heartbeat] end in: try to start and, when
    the start is not confirmed, ask for a reload. *)
Definition start_or_reload (h : Host) (reason : jsstring) : M unit :=
  started <- tryStart h ;;
  if negb started
  then log StartNotVisible ;; safeReload h reason
  else ret tt.

(** The world in which a blocked [safeReload] leaves [w]. *)
Definition reload_skipped (w : World) : World :=
  mkWorld (lastReloadAt w) (suspensions w) (S (clock_reads w))
          (trace w ++ [Log ReloadGuardActive]).

(** The world in which [safeReload] leaves [w] when it reloads. *)
Definition reloaded (h : Host) (reason : jsstring) (w : World) : World :=
  mkWorld (clock h (S (S (clock_reads w)))) (suspensions w)
          (S (S (S (clock_reads w))))
          (trace w ++ [Log (Reloading reason (clock h (S (clock_reads w))));
                       Reload (clock h (S (S (clock_reads w))))]).

(** The world [tryStart] starts polling in, having clicked [b]. *)
Definition clicked (b : elem) (w : World) : World :=
  mkWorld (lastReloadAt w) (suspensions w) (clock_reads w)
          (trace w ++ [Log StartingSession; Click b]).

(** The world [tryStart] ends in after [k] waits and the line [l]. *)
Definition polled (b : elem) (k : nat) (l : logline) (w : World) : World :=
  mkWorld (lastReloadAt w) (suspensions w + k) (clock_reads w)
          (trace w ++ [Log StartingSession; Click b]
                   ++ repeat (SetTimeout START_WAIT_STEPMS) k ++ [Log l]).

(* ----------------------------------------------------------------- *)
(** *** Sample pages and hosts *)

Definition text (s : string) : node := Text (lit s).

Definition button_node (dis : bool) (label : string) : node :=
  Element BUTTON (HTMLElement dis) [text label].

Definition page_of (cs : list node) : Document :=
  mkDocument (Element HTML (HTMLElement false)
                [Element OTHER (HTMLElement false) [];
                 Element BODY (HTMLElement false) cs]).

(** Nothing on the page. *)
Definition blank_page : Document := page_of [].

(** A session is running. *)
Definition running_page : Document :=
  page_of [button_node false "Stop Session"].

(** No session, and the start button can be clicked. *)
Definition stopped_page : Document :=
  page_of [button_node false "Start Session"].

(** No session, and the start button is disabled. *)
Definition disabled_page : Document :=
  page_of [button_node true "Start Session"].

(** The next challenge is due while a row still says the last one is
    being solved. *)
Definition ready_solving_page : Document :=
  page_of [Element DIV (HTMLElement false)
             [text "Next challenge in: 00:00:00:00"];
           Element DIV (HTMLElement false)
             [Element SPAN (HTMLElement false) [text "Finding a solution"]];
           button_node false "Start Session"].

(** A challenge is being solved, with no countdown shown. *)
Definition solving_page : Document :=
  page_of [Element DIV (HTMLElement false)
             [Element SPAN (HTMLElement false) [text "Finding a solution"]];
           button_node false "Start Session"].

(** Not a page: a document whose root is a [span]. *)
Definition bare_span : Document :=
  mkDocument (Element SPAN (HTMLElement false) [text "Finding a solution"]).

(** A clock that reads [t] at every reading. *)
Definition at_time (t : Z) : Host := mkHost (fun _ => blank_page) (fun _ => t).

(** A page that stays as it is, under a clock that advances 25 s from
    one reading to the next. *)
Definition steady (d : Document) : Host :=
  mkHost (fun _ => d) (fun n => 1000000 + 25000 * Z.of_nat n).

(** A page on which the click works: the stop button shows from the
    second suspension on. *)
Definition responsive (d : Document) : Host :=
  mkHost (fun n => match n with
                   | O => d
                   | S O => d
                   | _ => running_page
                   end)
         (fun n => 1000000 + 25000 * Z.of_nat n).


(* ----------------------------------------------------------------- *)
(** *** Vocabulary of the further properties *)

(** The test of [findBtn] on one button. *)
Definition label_matches (txt : jsstring) (b : elem) : bool :=
  includes (toLowerCase (textContent (self b))) (toLowerCase txt).

(** [s] occurs in [t]. *)
Definition infix (s t : jsstring) : Prop :=
  exists pre post, t = pre ++ s ++ post.

(** [h + m2 + s > 0] on the fields of a capture of the countdown. *)
Definition countdown_positive (m1 : jsstring) : bool :=
  let parts := map Number (split_colon m1) in
  js_gt0 (js_add (js_add (nth 0 parts None) (nth 1 parts None))
                 (nth 2 parts None)).

(** The countdown the scope of a row shows, when it is above zero. *)
Definition row_countdown (d : Document) (row : elem) : option jsstring :=
  match scope_text d row with
  | Some txt =>
      match exec_time_left txt with
      | Some m1 => if countdown_positive m1 then Some m1 else None
      | None => None
      end
  | None => None
  end.

(** The countdown of the first row that shows one above zero. *)
Fixpoint first_countdown (d : Document) (rows : list elem) : option jsstring :=
  match rows with
  | [] => None
  | row :: rest =>
      match row_countdown d row with
      | Some m1 => Some m1
      | None => first_countdown d rest
      end
  end.

(** An enabled button labelled "start session". *)
Definition start_button (b : elem) : Prop :=
  tag_of (self b) = Some BUTTON /\
  disabled_of b = false /\
  label_matches (lit "start session") b = true.

(** How many clicks, how many milliseconds of waiting and how many
    reloads a list of events holds. *)
Definition clicks_in (evs : list event) : nat :=
  List.length (filter is_click evs).

Fixpoint waited (evs : list event) : Z :=
  match evs with
  | [] => 0
  | SetTimeout ms :: evs' => ms + waited evs'
  | _ :: evs' => waited evs'
  end.

Definition reloads_in (evs : list event) : nat :=
  List.length (reload_stamps evs).

(** From [w] to [w'] the script has added events that hold at most [c]
    clicks, [t] milliseconds of waiting and [r] reloads. *)
Definition spends (c : nat) (t : Z) (r : nat) (w w' : World) : Prop :=
  exists evs, trace w' = trace w ++ evs /\
              (clicks_in evs <= c)%nat /\ 0 <= waited evs <= t /\
              (reloads_in evs <= r)%nat.

(** Every click of the trace is on an enabled start button. *)
Definition clicks_start_only (tr : list event) : Prop :=
  forall b, In (Click b) tr -> start_button b.

(** The timestamp is not negative and no reload is stamped before the
    guard window has passed on the clock. *)
Definition seasoned (w : World) : Prop :=
  0 <= lastReloadAt w /\
  Forall (fun t => RELOAD_GUARD_MS <= t) (reload_stamps (trace w)).

(** [w], resumed by a timer. *)
Definition resumed (w : World) : World :=
  mkWorld (lastReloadAt w) (S (suspensions w)) (clock_reads w) (trace w).

(** Every code unit of the string is ASCII. *)
Definition ascii_only (s : jsstring) : bool := forallb (fun c => (c <? 128)%N) s.

(** A page whose only element named [button] is not an HTML element:
    body > svg > button "Start Session". *)
Definition svg_button_page : Document :=
  page_of [Element OTHER ForeignElement
             [Element BUTTON ForeignElement [text "Start Session"]]].




(** A challenge is being solved, with five minutes to go. *)
Definition countdown_page : Document :=
  page_of [Element DIV (HTMLElement false)
             [Element SPAN (HTMLElement false) [text "Finding a solution"];
              text " Time left: 00:05:13"];
           button_node false "Start Session"].

(** Two start buttons, the first of them disabled. *)
Definition two_buttons_page : Document :=
  page_of [button_node true "START SESSION";
           button_node false "Start Session"].

(* ================================================================= *)
(** ** The matchers on sample texts *)

Example lit_stop : lit "stop" = [115; 116; 111; 112]%N.
Proof. reflexivity. Qed.

Example time_left_found :
  exec_time_left (lit "Finding a solution. Time left:  00:05:13 ...")
  = Some (lit "00:05:13").
Proof. reflexivity. Qed.

(** [\b] refuses a match that starts inside a word. *)
Example time_left_inside_word :
  exec_time_left (lit "overtime left: 00:05:13") = None.
Proof. reflexivity. Qed.

Example next_challenge_four_fields :
  option_map (fun g => map Number (split_colon g))
             (exec_next_challenge (lit "NEXT CHALLENGE IN: 00:00:00:00"))
  = Some [Some 0; Some 0; Some 0; Some 0].
Proof. reflexivity. Qed.

Example next_challenge_three_fields :
  option_map (fun g => map Number (split_colon g))
             (exec_next_challenge (lit "Next challenge in 01:02:03 "))
  = Some [Some 1; Some 2; Some 3].
Proof. reflexivity. Qed.

Example findBtn_ignores_case :
  option_map (fun b => textContent (self b))
             (findBtn_in running_page (lit "stop session"))
  = Some (lit "Stop Session").
Proof. reflexivity. Qed.

(** Off a page the scope of a row can be [null]: a document whose root
    is a matching [span] has no [div], no parent element and no body,
    and reading [scope.textContent] raises. *)
Example isSolving_off_page :
  isSolving (steady bare_span) initial = (Throw TypeError, initial).
Proof. reflexivity. Qed.

(** Both indicators at once: the solving row alone would make the tick
    skip, and yet the start button is clicked. *)
Example ready_and_solving_clicks :
  fst (isSolving (steady ready_solving_page) initial) = Return true /\
  existsb is_click (trace (snd (heartbeat (steady ready_solving_page) initial)))
  = true.
Proof. split; reflexivity. Qed.

(* ================================================================= *)
(** ** The monad *)

Lemma respects_ret {A} (R : World -> World -> Prop) (a : A) :
  (forall w, R w w) -> respects R (ret a).
Proof. intros Hrefl w. apply Hrefl. Qed.

Lemma respects_bind {A B} (R : World -> World -> Prop)
      (c : M A) (k : A -> M B) :
  (forall x y z, R x y -> R y z -> R x z) ->
  respects R c -> (forall a, respects R (k a)) -> respects R (bind c k).
Proof.
  intros Htrans Hc Hk w. unfold bind.
  specialize (Hc w). destruct (c w) as [[a | e] w1]; simpl in *.
  - eapply Htrans; [exact Hc | apply Hk].
  - exact Hc.
Qed.

Lemma logs_only_refl w : logs_only w w.
Proof.
  repeat split. exists []. simpl. now rewrite app_nil_r.
Qed.

Lemma logs_only_trans x y z : logs_only x y -> logs_only y z -> logs_only x z.
Proof.
  intros (a1 & a2 & a3 & l1 & E1) (b1 & b2 & b3 & l2 & E2).
  repeat split; try congruence.
  exists (l1 ++ l2). rewrite E2, E1, map_app, app_assoc. reflexivity.
Qed.

Lemma no_reload_refl w : no_reload w w.
Proof.
  split; [reflexivity|]. exists []. split; [now rewrite app_nil_r | constructor].
Qed.

Lemma no_reload_trans x y z : no_reload x y -> no_reload y z -> no_reload x z.
Proof.
  intros (a1 & e1 & E1 & F1) (b1 & e2 & E2 & F2).
  split; [congruence|].
  exists (e1 ++ e2). split.
  - rewrite E2, E1, app_assoc. reflexivity.
  - apply Forall_app. now split.
Qed.

Lemma logs_only_no_reload w w' : logs_only w w' -> no_reload w w'.
Proof.
  intros (a1 & _ & _ & ls & E). split; [exact a1|].
  exists (map Log ls). split; [exact E|].
  apply Forall_forall. intros e He. apply in_map_iff in He.
  destruct He as (l & <- & _). reflexivity.
Qed.

Lemma log_logs_only l : respects logs_only (log l).
Proof.
  intros w. repeat split. exists [l]. reflexivity.
Qed.

Section Frames.

Variable h : Host.

Lemma get_document_logs_only : respects logs_only (get_document h).
Proof. intros w. apply logs_only_refl. Qed.

Lemma prop_logs_only {A B} (f : A -> B) o : respects logs_only (prop f o).
Proof. intros w. destruct o; apply logs_only_refl. Qed.

Lemma findBtn_logs_only txt : respects logs_only (findBtn h txt).
Proof. intros w. apply logs_only_refl. Qed.

Ltac frame_logs :=
  repeat first
    [ apply respects_bind; [exact logs_only_trans | | intros ?]
    | apply get_document_logs_only
    | apply prop_logs_only
    | apply log_logs_only
    | apply findBtn_logs_only
    | apply respects_ret; exact logs_only_refl
    | assumption ].

Lemma isSolving_loop_logs_only rows : respects logs_only (isSolving_loop h rows).
Proof.
  induction rows as [| row rest IH]; simpl.
  - frame_logs.
  - frame_logs.
    destruct (exec_time_left _); [| exact IH].
    destruct (js_gt0 _); frame_logs.
Qed.

Lemma isSolving_logs_only : respects logs_only (isSolving h).
Proof.
  unfold isSolving. frame_logs.
  destruct (_ =? _)%nat; frame_logs. apply isSolving_loop_logs_only.
Qed.

Lemma isNextChallengeReady_loop_logs_only rows :
  respects logs_only (isNextChallengeReady_loop h rows).
Proof.
  induction rows as [| row rest IH]; simpl.
  - frame_logs.
  - frame_logs.
    destruct (exec_next_challenge _); [| exact IH].
    destruct (forallb _ _); frame_logs.
Qed.

Lemma isNextChallengeReady_logs_only : respects logs_only (isNextChallengeReady h).
Proof.
  unfold isNextChallengeReady. frame_logs.
  destruct (_ =? _)%nat; frame_logs. apply isNextChallengeReady_loop_logs_only.
Qed.

End Frames.

(* ================================================================= *)
(** ** The DOM: every row of a page has a scope *)

Lemma elements_of_self_or_below :
  forall n anc e, In e (elements_of anc n) ->
    e = mkElem n anc \/ ancestors e <> [].
Proof.
  fix IH 1. intros [t dis cs | d] anc e Hin; simpl in Hin.
  - destruct Hin as [<- | Hin]; [now left | right].
    assert (Hanc : Element t dis cs :: anc <> []) by discriminate.
    revert Hanc Hin. generalize (Element t dis cs :: anc). intros anc' Hanc Hin.
    induction cs as [| c cs IHcs]; simpl in Hin; [contradiction|].
    apply in_app_or in Hin. destruct Hin as [Hin | Hin].
    + destruct (IH c _ _ Hin) as [-> | Hne]; [exact Hanc | exact Hne].
    + exact (IHcs Hin).
  - contradiction.
Qed.

Lemma scope_defined d sel row :
  has_tag sel (documentElement d) = false ->
  In row (querySelectorAll d sel) -> exists n, scope_in d row = Some n.
Proof.
  intros Hroot Hin. unfold querySelectorAll in Hin.
  apply filter_In in Hin. destruct Hin as [Hin Htag].
  apply elements_of_self_or_below in Hin.
  destruct Hin as [-> | Hne].
  - simpl in Htag. congruence.
  - unfold scope_in. destruct (closest DIV row) as [n |]; [now exists n|].
    simpl. unfold parentElement. destruct (ancestors row) as [| p ps].
    + congruence.
    + now exists p.
Qed.

Lemma html_root_not_selected d sel :
  html_rooted d -> existsb (tag_beq HTML) sel = false ->
  has_tag sel (documentElement d) = false.
Proof.
  unfold html_rooted, has_tag. intros -> H. exact H.
Qed.

Lemma solving_rows_scope d row :
  html_rooted d -> In row (solving_rows d) -> exists n, scope_in d row = Some n.
Proof.
  intros Hd Hin. apply filter_In in Hin. destruct Hin as [Hin _].
  eapply scope_defined; eauto. now apply html_root_not_selected.
Qed.

Lemma next_rows_scope d row :
  html_rooted d -> In row (next_rows d) -> exists n, scope_in d row = Some n.
Proof.
  intros Hd Hin. apply filter_In in Hin. destruct Hin as [Hin _].
  eapply scope_defined; eauto. now apply html_root_not_selected.
Qed.

(** [findBtn] finds a button exactly when one is labelled so. *)
Lemma findBtn_in_labelled d txt :
  button_labelled d txt <-> truthy (findBtn_in d txt) = true.
Proof.
  unfold button_labelled, findBtn_in. split.
  - intros (b & Hin & Hb).
    destruct (find _ _) eqn:E; [reflexivity|].
    eapply find_none in E; [| exact Hin]. simpl in E. congruence.
  - destruct (find _ _) as [b |] eqn:E; [| discriminate].
    intros _. apply find_some in E. now exists b.
Qed.

(* ================================================================= *)
(** ** The detectors *)

Section Detectors.

Variable h : Host.

(** One turn of each [for ... of rows] loop. *)
Lemma isSolving_loop_cons row rest w :
  isSolving_loop h (row :: rest) w =
  match scope_in (document h w) row with
  | None => (Throw TypeError, w)
  | Some n =>
      match exec_time_left (textContent n) with
      | Some m1 =>
          let parts := map Number (split_colon m1) in
          if js_gt0 (js_add (js_add (nth 0 parts None) (nth 1 parts None))
                            (nth 2 parts None))
          then (Return true, logged (ChallengeRunning m1) w)
          else isSolving_loop h rest w
      | None => isSolving_loop h rest w
      end
  end.
Proof.
  simpl. unfold bind, get_document. simpl.
  destruct (scope_in _ row) as [n |]; simpl; [| reflexivity].
  destruct (exec_time_left _) as [m1 |]; [| reflexivity].
  destruct (js_gt0 _); reflexivity.
Qed.

Lemma isNextChallengeReady_loop_cons row rest w :
  isNextChallengeReady_loop h (row :: rest) w =
  match scope_in (document h w) row with
  | None => (Throw TypeError, w)
  | Some n =>
      match exec_next_challenge (textContent n) with
      | Some timeStr =>
          if forallb js_is0 (map Number (split_colon timeStr))
          then (Return true, logged NextChallengeIsReady w)
          else isNextChallengeReady_loop h rest w
      | None => isNextChallengeReady_loop h rest w
      end
  end.
Proof.
  simpl. unfold bind, get_document. simpl.
  destruct (scope_in _ row) as [n |]; simpl; [| reflexivity].
  destruct (exec_next_challenge _) as [g |]; [| reflexivity].
  destruct (forallb _ _); reflexivity.
Qed.

Lemma isSolving_loop_true rows w :
  (forall row, In row rows -> exists n, scope_in (document h w) row = Some n) ->
  exists l, isSolving_loop h rows w = (Return true, logged l w) /\
            (l = ChallengeAppearsActive \/ exists m1, l = ChallengeRunning m1).
Proof.
  intros Hscope. induction rows as [| row rest IH].
  - exists ChallengeAppearsActive. split; [reflexivity | now left].
  - rewrite isSolving_loop_cons.
    destruct (Hscope row (or_introl eq_refl)) as [n ->].
    assert (IH' := IH (fun r Hr => Hscope r (or_intror Hr))).
    destruct (exec_time_left _) as [m1 |]; [| exact IH']. cbv zeta.
    destruct (js_gt0 _); [| exact IH'].
    exists (ChallengeRunning m1). split; [reflexivity | right; now exists m1].
Qed.

Lemma isSolving_loop_unparsed rows w :
  (forall row, In row rows -> exists n, scope_in (document h w) row = Some n) ->
  (forall row txt, In row rows -> scope_text (document h w) row = Some txt ->
                   exec_time_left txt = None) ->
  isSolving_loop h rows w = (Return true, logged ChallengeAppearsActive w).
Proof.
  intros Hscope Hnone. induction rows as [| row rest IH].
  - reflexivity.
  - rewrite isSolving_loop_cons.
    destruct (Hscope row (or_introl eq_refl)) as [n Hn]. rewrite Hn.
    rewrite (Hnone row (textContent n) (or_introl eq_refl)).
    + apply IH; intros; [apply Hscope | eapply Hnone]; simpl; eauto.
    + unfold scope_text. now rewrite Hn.
Qed.

Lemma isSolving_no_rows w :
  solving_rows (document h w) = [] -> isSolving h w = (Return false, w).
Proof.
  intros E. unfold isSolving, bind, get_document. simpl. now rewrite E.
Qed.

Lemma isSolving_rows w :
  solving_rows (document h w) <> [] ->
  isSolving h w = isSolving_loop h (solving_rows (document h w)) w.
Proof.
  intros E. unfold isSolving, bind, get_document. simpl.
  destruct (solving_rows (document h w)); [congruence | reflexivity].
Qed.

Lemma isSolving_loop_not_false rows w w' :
  isSolving_loop h rows w <> (Return false, w').
Proof.
  induction rows as [| row rest IH].
  - discriminate.
  - rewrite isSolving_loop_cons.
    destruct (scope_in _ row) as [n |]; [| discriminate].
    destruct (exec_time_left _) as [m1 |]; [| exact IH]. cbv zeta.
    destruct (js_gt0 _); [discriminate | exact IH].
Qed.

Lemma isSolving_false_no_rows w w' :
  isSolving h w = (Return false, w') -> solving_rows (document h w) = [].
Proof.
  intros E. destruct (solving_rows (document h w)) as [| r rs] eqn:Er; [reflexivity|].
  exfalso. rewrite isSolving_rows in E by congruence.
  exact (isSolving_loop_not_false _ _ _ E).
Qed.

Lemma isNextChallengeReady_no_rows w :
  next_rows (document h w) = [] -> isNextChallengeReady h w = (Return false, w).
Proof.
  intros E. unfold isNextChallengeReady, bind, get_document. simpl. now rewrite E.
Qed.

(** With a scope for every row, the loop answers whether a row is due. *)
Lemma isNextChallengeReady_loop_due rows w :
  (forall row, In row rows -> exists n, scope_in (document h w) row = Some n) ->
  isNextChallengeReady_loop h rows w =
  if existsb (row_due (document h w)) rows
  then (Return true, logged NextChallengeIsReady w)
  else (Return false, w).
Proof.
  intros Hscope. induction rows as [| row rest IH].
  - reflexivity.
  - rewrite isNextChallengeReady_loop_cons. simpl existsb.
    unfold row_due at 1, scope_text.
    destruct (Hscope row (or_introl eq_refl)) as [n ->]. cbn [option_map].
    cbv iota beta.
    assert (IH' := IH (fun r Hr => Hscope r (or_intror Hr))).
    destruct (exec_next_challenge (textContent n)) as [g |]; [| exact IH'].
    unfold all_zero. destruct (forallb _ _); [reflexivity | exact IH'].
Qed.

Lemma isNextChallengeReady_unfold w :
  isNextChallengeReady h w =
  if (List.length (next_rows (document h w)) =? 0)%nat
  then (Return false, w)
  else isNextChallengeReady_loop h (next_rows (document h w)) w.
Proof.
  unfold isNextChallengeReady, bind, get_document. simpl.
  destruct (_ =? _)%nat; reflexivity.
Qed.

Lemma isNextChallengeReady_due w :
  html_rooted (document h w) ->
  isNextChallengeReady h w =
  if next_challenge_due (document h w)
  then (Return true, logged NextChallengeIsReady w)
  else (Return false, w).
Proof.
  intros Hd. rewrite isNextChallengeReady_unfold. unfold next_challenge_due.
  destruct (next_rows (document h w)) as [| r rs] eqn:E; [reflexivity|].
  cbn [List.length Nat.eqb]. rewrite <- E.
  apply isNextChallengeReady_loop_due.
  intros row Hin. now apply next_rows_scope.
Qed.

Lemma isNextChallengeReady_returns w :
  html_rooted (document h w) ->
  isNextChallengeReady h w = (Return false, w) \/
  isNextChallengeReady h w = (Return true, logged NextChallengeIsReady w).
Proof.
  intros Hd. rewrite (isNextChallengeReady_due w Hd).
  destruct (next_challenge_due _); auto.
Qed.

(** A detector that answers [false] has left no mark. *)
Lemma isNextChallengeReady_loop_false rows w w' :
  isNextChallengeReady_loop h rows w = (Return false, w') -> w' = w.
Proof.
  induction rows as [| row rest IH].
  - intros E. now inversion E.
  - rewrite isNextChallengeReady_loop_cons.
    destruct (scope_in _ row) as [n |]; [| discriminate].
    destruct (exec_next_challenge _) as [g |]; [| exact IH].
    destruct (forallb _ _); [discriminate | exact IH].
Qed.

Lemma isNextChallengeReady_false w w' :
  isNextChallengeReady h w = (Return false, w') -> w' = w.
Proof.
  rewrite isNextChallengeReady_unfold.
  destruct (_ =? _)%nat.
  - intros E. now inversion E.
  - apply isNextChallengeReady_loop_false.
Qed.

End Detectors.

(* ================================================================= *)
(** ** Starting a session *)

Section Start.

Variable h : Host.

Lemma tryStart_loop_S n w :
  tryStart_loop h (S n) w =
  let w1 := mkWorld (lastReloadAt w) (S (suspensions w)) (clock_reads w)
                    (trace w ++ [SetTimeout START_WAIT_STEPMS]) in
  if stop_seen h (S (suspensions w))
  then (Return true, logged SessionStarted w1)
  else tryStart_loop h n w1.
Proof.
  simpl. unfold bind, sleep, findBtn, get_document, ret, stop_seen, document.
  simpl. destruct (truthy _); reflexivity.
Qed.

(** The loop runs [k <= n] waits of [START_WAIT_STEPMS] and ends either
    on the first page that shows a stop button or after the last wait. *)
Lemma tryStart_loop_spec n : forall w,
  exists k r l,
    (k <= n)%nat /\
    tryStart_loop h n w =
      (Return r,
       mkWorld (lastReloadAt w) (suspensions w + k) (clock_reads w)
               (trace w ++ repeat (SetTimeout START_WAIT_STEPMS) k ++ [Log l])) /\
    (forall i, (1 <= i <= k)%nat -> (i < k)%nat \/ r = false ->
               stop_seen h (suspensions w + i) = false) /\
    ((r = true /\ l = SessionStarted /\ (1 <= k)%nat /\
      stop_seen h (suspensions w + k) = true) \/
     (r = false /\ l = StartNotConfirmed /\ k = n)).
Proof.
  induction n as [| n IH]; intros w.
  - exists O, false, StartNotConfirmed. rewrite Nat.add_0_r.
    split; [lia|]. split; [reflexivity|]. split; [| right; auto].
    intros i Hi. lia.
  - rewrite tryStart_loop_S. cbv zeta.
    destruct (stop_seen h (S (suspensions w))) eqn:Es.
    + exists 1%nat, true, SessionStarted.
      rewrite Nat.add_1_r. unfold logged. simpl. rewrite <- app_assoc.
      split; [lia|]. split; [reflexivity|]. split.
      * intros i Hi [Hlt | Hr]; [lia | discriminate].
      * left. repeat split; auto.
    + destruct (IH (mkWorld (lastReloadAt w) (S (suspensions w)) (clock_reads w)
                            (trace w ++ [SetTimeout START_WAIT_STEPMS])))
        as (k & r & l & Hk & E & Hbefore & Hend).
      simpl in *. exists (S k), r, l.
      rewrite Nat.add_succ_r. rewrite <- app_assoc in E. simpl in E.
      split; [lia|]. split; [exact E|]. split.
      * intros i Hi Hor. destruct (Nat.eq_dec i 1) as [-> | Hne].
        -- now rewrite Nat.add_1_r.
        -- specialize (Hbefore (i - 1)%nat).
           replace (S (suspensions w + (i - 1)))%nat
             with (suspensions w + i)%nat in Hbefore by lia.
           apply Hbefore; [lia|]. destruct Hor; [left; lia | now right].
      * destruct Hend as [(-> & -> & Hk1 & Hs) | (-> & -> & ->)].
        -- left. repeat split; auto; lia.
        -- right. repeat split; auto.
Qed.

Lemma tryStart_unfold w :
  tryStart h w =
  match findBtn_in (document h w) (lit "start session") with
  | None => (Return false, w)
  | Some b =>
      if disabled_of b then (Return false, w)
      else if has_click b
      then tryStart_loop h START_WAIT_LOOPS
             (mkWorld (lastReloadAt w) (suspensions w) (clock_reads w)
                      (trace w ++ [Log StartingSession; Click b]))
      else (Throw TypeError, logged StartingSession w)
  end.
Proof.
  unfold tryStart, bind at 1, findBtn, bind at 1, get_document, ret. simpl.
  destruct (findBtn_in _ _) as [b |]; simpl; [| reflexivity].
  unfold bind at 1. simpl. destruct (disabled_of b); [reflexivity|].
  unfold bind at 1. simpl. unfold bind at 1, click.
  destruct (has_click b); [| reflexivity]. simpl.
  unfold logged. simpl. now rewrite <- app_assoc.
Qed.

Lemma tryStart_loop_no_reload n : respects no_reload (tryStart_loop h n).
Proof.
  intros w. destruct (tryStart_loop_spec n w) as (k & r & l & _ & E & _).
  rewrite E. simpl. split; [reflexivity|].
  eexists. split; [reflexivity|].
  apply Forall_app. split.
  - apply Forall_forall. intros e He. apply repeat_spec in He. now subst.
  - repeat constructor.
Qed.

Lemma tryStart_no_reload : respects no_reload (tryStart h).
Proof.
  intros w. rewrite tryStart_unfold.
  destruct (findBtn_in _ _) as [b |]; [| apply no_reload_refl].
  destruct (disabled_of b); [apply no_reload_refl|].
  destruct (has_click b).
  - eapply no_reload_trans; [| apply tryStart_loop_no_reload].
    split; [reflexivity|]. eexists. split; [reflexivity|]. repeat constructor.
  - apply logs_only_no_reload, log_logs_only.
Qed.

(** [tryStart] returns when what it found, if anything, can be clicked. *)
Lemma tryStart_returns w :
  (forall b, findBtn_in (document h w) (lit "start session") = Some b ->
             has_click b = true) ->
  exists r w', tryStart h w = (Return r, w').
Proof.
  intros Hclick. rewrite tryStart_unfold.
  destruct (findBtn_in _ _) as [b |]; [| eauto].
  destruct (disabled_of b); [eauto|].
  rewrite (Hclick b eq_refl).
  destruct (tryStart_loop_spec START_WAIT_LOOPS
              (mkWorld (lastReloadAt w) (suspensions w) (clock_reads w)
                       (trace w ++ [Log StartingSession; Click b])))
    as (k & r & l & _ & E & _).
  rewrite E. eauto.
Qed.

Lemma no_click_not_disabled b : has_click b = false -> disabled_of b = false.
Proof.
  unfold has_click, is_html, disabled_of.
  destruct (self b) as [t [d |] cs | d]; [discriminate | reflexivity | reflexivity].
Qed.

(** [tryStart] raises at [start.click()] when what it found cannot be
    clicked, having logged that it starts the session. *)
Lemma tryStart_raises w b :
  findBtn_in (document h w) (lit "start session") = Some b ->
  has_click b = false ->
  tryStart h w = (Throw TypeError, logged StartingSession w).
Proof.
  intros Hb Hc. now rewrite tryStart_unfold, Hb, (no_click_not_disabled b Hc), Hc.
Qed.

End Start.

(* ================================================================= *)
(** ** The reload guard *)

Lemma reload_stamps_app tr1 tr2 :
  reload_stamps (tr1 ++ tr2) = reload_stamps tr1 ++ reload_stamps tr2.
Proof.
  induction tr1 as [| e tr1 IH]; simpl; [reflexivity|].
  destruct e; simpl; now rewrite IH.
Qed.

Lemma reload_stamps_quiet evs :
  Forall (fun e => is_reload e = false) evs -> reload_stamps evs = [].
Proof.
  induction 1 as [| e evs He _ IH]; simpl; [reflexivity|].
  destruct e; simpl in *; congruence.
Qed.

Lemma spaced_snoc stamps t :
  spaced stamps ->
  Forall (fun a => RELOAD_GUARD_MS <= t - a) stamps ->
  spaced (stamps ++ [t]).
Proof.
  intros Hs Hall i j a b Hij Ha Hb.
  assert (Hj : (j < List.length (stamps ++ [t]))%nat)
    by (apply nth_error_Some; congruence).
  rewrite length_app in Hj. simpl in Hj.
  assert (Hi : (i < List.length stamps)%nat) by lia.
  rewrite nth_error_app1 in Ha by exact Hi.
  destruct (Nat.eq_dec j (List.length stamps)) as [-> | Hne].
  - rewrite nth_error_app2, Nat.sub_diag in Hb by lia.
    simpl in Hb. injection Hb as <-.
    rewrite Forall_forall in Hall. apply Hall.
    eapply nth_error_In; eauto.
  - rewrite nth_error_app1 in Hb by lia. eauto.
Qed.

Lemma no_reload_guarded w w' : no_reload w w' -> guarded w -> guarded w'.
Proof.
  intros (El & evs & Et & Hq) [Hle Hsp]. unfold guarded.
  rewrite Et, reload_stamps_app, (reload_stamps_quiet _ Hq), app_nil_r, El.
  now split.
Qed.

Section Guard.

Variable h : Host.

Lemma safeReload_blocked reason w :
  clock h (clock_reads w) - lastReloadAt w < RELOAD_GUARD_MS ->
  safeReload h reason w = (Return tt, reload_skipped w).
Proof.
  intros Hlt. unfold safeReload, bind, now, get_lastReloadAt, reload_skipped. simpl.
  apply Z.ltb_lt in Hlt. now rewrite Hlt.
Qed.

Lemma safeReload_allowed reason w :
  RELOAD_GUARD_MS <= clock h (clock_reads w) - lastReloadAt w ->
  safeReload h reason w = (Return tt, reloaded h reason w).
Proof.
  intros Hge. unfold safeReload, bind, now, get_lastReloadAt, reloaded. simpl.
  apply Z.ltb_ge in Hge. rewrite Hge. simpl.
  unfold location_reload. simpl. now rewrite <- app_assoc.
Qed.

Lemma safeReload_never_throws reason w :
  exists w', safeReload h reason w = (Return tt, w').
Proof.
  destruct (Z.lt_ge_cases (clock h (clock_reads w) - lastReloadAt w) RELOAD_GUARD_MS).
  - rewrite safeReload_blocked by assumption. eauto.
  - rewrite safeReload_allowed by assumption. eauto.
Qed.

Hypothesis Hclock : clock_steady h.

Lemma safeReload_guarded reason w :
  guarded w -> guarded (snd (safeReload h reason w)).
Proof.
  intros [Hle Hsp].
  destruct (Z.lt_ge_cases (clock h (clock_reads w) - lastReloadAt w) RELOAD_GUARD_MS)
    as [Hlt | Hge].
  - rewrite safeReload_blocked by assumption. unfold guarded. simpl.
    rewrite reload_stamps_app. simpl. rewrite app_nil_r. now split.
  - rewrite safeReload_allowed by assumption. unfold guarded. simpl.
    rewrite reload_stamps_app. simpl.
    assert (Hc : clock h (clock_reads w) <= clock h (S (S (clock_reads w))))
      by apply Hclock.
    unfold RELOAD_GUARD_MS in *. split.
    + apply Forall_app. split; [| repeat constructor; simpl; lia].
      eapply Forall_impl; [| exact Hle]. simpl. intros a Ha. lia.
    + apply spaced_snoc; [exact Hsp|].
      eapply Forall_impl; [| exact Hle]. simpl. intros a Ha.
      unfold RELOAD_GUARD_MS. lia.
Qed.

End Guard.

(* ================================================================= *)
(** ** The heartbeat *)

Section Heartbeat.

Variable h : Host.

(** The branch both paths of [heartbeat] end in. *)
Lemma start_or_reload_respects (R : World -> World -> Prop) reason :
  (forall w, R w w) ->
  (forall x y z, R x y -> R y z -> R x z) ->
  (forall w w', no_reload w w' -> R w w') ->
  (forall r, respects R (safeReload h r)) ->
  respects R (started <- tryStart h ;;
              if negb started
              then log StartNotVisible ;; safeReload h reason
              else ret tt).
Proof.
  intros Hrefl Htrans Hincl Hsafe.
  apply respects_bind; [exact Htrans | |].
  - intros w. apply Hincl, tryStart_no_reload.
  - intros [|]; simpl.
    + now apply respects_ret.
    + apply respects_bind; [exact Htrans | | intros _; apply Hsafe].
      intros w. apply Hincl, logs_only_no_reload, log_logs_only.
Qed.

Lemma heartbeat_respects (R : World -> World -> Prop) :
  (forall w, R w w) ->
  (forall x y z, R x y -> R y z -> R x z) ->
  (forall w w', no_reload w w' -> R w w') ->
  (forall r, respects R (safeReload h r)) ->
  respects R (heartbeat h).
Proof.
  intros Hrefl Htrans Hincl Hsafe.
  assert (Hlogs : forall A (c : M A), respects logs_only c -> respects R c)
    by (intros A c Hc w; apply Hincl, logs_only_no_reload, Hc).
  unfold heartbeat.
  apply respects_bind; [exact Htrans | apply Hlogs, findBtn_logs_only |].
  intros stop. destruct (truthy stop).
  - apply respects_bind; [exact Htrans | apply Hlogs, log_logs_only |].
    intros _. now apply respects_ret.
  - apply respects_bind;
      [exact Htrans | apply Hlogs, isNextChallengeReady_logs_only |].
    intros [|].
    + apply respects_bind; [exact Htrans | apply Hlogs, log_logs_only |].
      intros _. now apply start_or_reload_respects.
    + apply respects_bind; [exact Htrans | apply Hlogs, isSolving_logs_only |].
      intros [|]; [now apply respects_ret|].
      now apply start_or_reload_respects.
Qed.

Lemma tick_respects (R : World -> World -> Prop) :
  (forall w, R w w) ->
  (forall x y z, R x y -> R y z -> R x z) ->
  (forall w w', no_reload w w' -> R w w') ->
  (forall r, respects R (safeReload h r)) ->
  respects R (tick h).
Proof.
  intros Hrefl Htrans Hincl Hsafe w. unfold tick. simpl.
  eapply Htrans; [| exact (heartbeat_respects R Hrefl Htrans Hincl Hsafe _)].
  apply Hincl. split; [reflexivity|]. exists []. simpl.
  split; [now rewrite app_nil_r | constructor].
Qed.

Lemma interval_respects (R : World -> World -> Prop) n :
  (forall w, R w w) ->
  (forall x y z, R x y -> R y z -> R x z) ->
  (forall w w', no_reload w w' -> R w w') ->
  (forall r, respects R (safeReload h r)) ->
  respects R (interval h n).
Proof.
  intros Hrefl Htrans Hincl Hsafe. induction n as [| n IH]; simpl.
  - now apply respects_ret.
  - apply respects_bind; [exact Htrans | exact IH |].
    intros _. now apply tick_respects.
Qed.

Lemma main_respects (R : World -> World -> Prop) n :
  (forall w, R w w) ->
  (forall x y z, R x y -> R y z -> R x z) ->
  (forall w w', no_reload w w' -> R w w') ->
  (forall r, respects R (safeReload h r)) ->
  respects R (main h n).
Proof.
  intros Hrefl Htrans Hincl Hsafe. unfold main.
  apply respects_bind; [exact Htrans | |].
  - intros w. apply Hincl, logs_only_no_reload, log_logs_only.
  - intros _. apply respects_bind; [exact Htrans | now apply tick_respects |].
    intros _. now apply interval_respects.
Qed.

End Heartbeat.

Section Unfolding.

Variable h : Host.

Lemma start_or_reload_unfold reason w :
  start_or_reload h reason w =
  match tryStart h w with
  | (Return true, w1) => (Return tt, w1)
  | (Return false, w1) => safeReload h reason (logged StartNotVisible w1)
  | (Throw e, w1) => (Throw e, w1)
  end.
Proof.
  unfold start_or_reload, bind at 1.
  destruct (tryStart h w) as [[[|] | e] w1]; reflexivity.
Qed.

Lemma heartbeat_unfold w :
  heartbeat h w =
  if truthy (findBtn_in (document h w) (lit "stop session"))
  then (Return tt, logged SessionRunning w)
  else
    match isNextChallengeReady h w with
    | (Return true, w1) =>
        start_or_reload h (lit "Next challenge ready but Start not visible")
                        (logged NextChallengeReadyProceeding w1)
    | (Return false, w1) =>
        match isSolving h w1 with
        | (Return true, w2) => (Return tt, w2)
        | (Return false, w2) =>
            start_or_reload h (lit "session stopped and Start not visible") w2
        | (Throw e, w2) => (Throw e, w2)
        end
    | (Throw e, w1) => (Throw e, w1)
    end.
Proof.
  unfold heartbeat, bind at 1, findBtn, bind at 1, get_document, ret.
  cbv beta iota.
  destruct (truthy _); [reflexivity|].
  unfold bind at 1.
  destruct (isNextChallengeReady h w) as [[[|] | e] w1]; [reflexivity | | reflexivity].
  unfold bind at 1.
  destruct (isSolving h w1) as [[[|] | e] w2]; reflexivity.
Qed.



End Unfolding.

Lemma not_labelled d txt : ~ button_labelled d txt -> findBtn_in d txt = None.
Proof.
  intros Hno. destruct (findBtn_in d txt) as [b |] eqn:E; [| reflexivity].
  exfalso. apply Hno, findBtn_in_labelled. now rewrite E.
Qed.

(** What [tryStart] does once it has found an enabled start button. *)
Lemma tryStart_clicks h w b :
  findBtn_in (document h w) (lit "start session") = Some b ->
  disabled_of b = false ->
  has_click b = true ->
  exists k r l,
    (k <= START_WAIT_LOOPS)%nat /\
    tryStart h w = (Return r, polled b k l w) /\
    (forall i, (1 <= i <= k)%nat -> (i < k)%nat \/ r = false ->
               stop_seen h (suspensions w + i) = false) /\
    ((r = true /\ l = SessionStarted /\ (1 <= k)%nat /\
      stop_seen h (suspensions w + k) = true) \/
     (r = false /\ l = StartNotConfirmed /\ k = START_WAIT_LOOPS)).
Proof.
  intros Hb Hdis Hc. rewrite tryStart_unfold, Hb, Hdis, Hc.
  destruct (tryStart_loop_spec h START_WAIT_LOOPS
              (mkWorld (lastReloadAt w) (suspensions w) (clock_reads w)
                       (trace w ++ [Log StartingSession; Click b])))
    as (k & r & l & Hk & E & Hbefore & Hend).
  exists k, r, l. simpl in *.
  split; [exact Hk|]. split; [| split; assumption].
  rewrite E. unfold polled. now rewrite <- app_assoc.
Qed.

(* ================================================================= *)
(** ** The properties *)

(** C2. In a tick that finds a button labelled "stop session" on the
    page, [heartbeat] logs that the session is running and returns: the
    world it leaves differs by that one console line, so nothing is
    clicked, no reload is issued, and neither [tryStart] nor
    [safeReload] has run. *)
Theorem heartbeat_session_running (h : Host) (w : World) :
  button_labelled (document h w) (lit "stop session") ->
  heartbeat h w = (Return tt, logged SessionRunning w) /\
  forall e, In e (trace (snd (heartbeat h w))) ->
            In e (trace w) \/ (is_click e = false /\ is_reload e = false).
Proof.
  intros Hstop. apply findBtn_in_labelled in Hstop.
  assert (E : heartbeat h w = (Return tt, logged SessionRunning w))
    by (rewrite heartbeat_unfold, Hstop; reflexivity).
  split; [exact E|]. rewrite E. simpl. intros e He.
  apply in_app_or in He. destruct He as [He | [<- | []]]; auto.
Qed.

Lemma heartbeat_session_running_witness :
  button_labelled (document (steady running_page) initial) (lit "stop session") /\
  heartbeat (steady running_page) initial
  = (Return tt, logged SessionRunning initial).
Proof.
  assert (H : button_labelled (document (steady running_page) initial)
                              (lit "stop session"))
    by (apply findBtn_in_labelled; reflexivity).
  split; [exact H|].
  exact (proj1 (heartbeat_session_running (steady running_page) initial H)).
Defined.

Lemma existsb_repeat {A} (p : A -> bool) x k :
  p x = false -> existsb p (repeat x k) = false.
Proof.
  intros Hx. induction k as [| k IH]; simpl; [reflexivity|]. now rewrite Hx.
Qed.

Lemma tryStart_events h w :
  exists evs, trace (snd (tryStart h w)) = trace w ++ evs /\
              existsb is_solving_line evs = false.
Proof.
  destruct (findBtn_in (document h w) (lit "start session")) as [b |] eqn:Eb.
  - destruct (disabled_of b) eqn:Ed.
    + rewrite tryStart_unfold, Eb, Ed. exists []. now rewrite app_nil_r.
    + destruct (has_click b) eqn:Ec.
      * destruct (tryStart_clicks h w b Eb Ed Ec)
          as (k & r & l & _ & E & _ & Hend).
        rewrite E. eexists. split; [reflexivity|].
        rewrite !existsb_app, existsb_repeat by reflexivity.
        destruct Hend as [(_ & -> & _) | (_ & -> & _)]; reflexivity.
      * rewrite (tryStart_raises h w b Eb Ec). eexists. split; reflexivity.
  - rewrite tryStart_unfold, Eb. exists []. now rewrite app_nil_r.
Qed.

Lemma safeReload_events h reason w :
  exists evs, trace (snd (safeReload h reason w)) = trace w ++ evs /\
              existsb is_solving_line evs = false.
Proof.
  destruct (Z.lt_ge_cases (clock h (clock_reads w) - lastReloadAt w) RELOAD_GUARD_MS).
  - rewrite safeReload_blocked by assumption. eexists. split; reflexivity.
  - rewrite safeReload_allowed by assumption. eexists. split; reflexivity.
Qed.

Lemma start_or_reload_events h reason w :
  exists evs, trace (snd (start_or_reload h reason w)) = trace w ++ evs /\
              existsb is_solving_line evs = false.
Proof.
  rewrite start_or_reload_unfold.
  destruct (tryStart_events h w) as (e1 & E1 & H1).
  destruct (tryStart h w) as [[[|] | e] w1]; cbn [snd] in E1;
    [now exists e1 | | now exists e1].
  destruct (safeReload_events h reason (logged StartNotVisible w1)) as (e2 & E2 & H2).
  exists (e1 ++ [Log StartNotVisible] ++ e2). split.
  - rewrite E2. simpl. rewrite E1, <- !app_assoc. reflexivity.
  - rewrite !existsb_app, H1, H2. reflexivity.
Qed.

(** The path of [heartbeat] when the next challenge is found ready. *)
Lemma heartbeat_ready_branch (h : Host) (w w1 : World) :
  ~ button_labelled (document h w) (lit "stop session") ->
  isNextChallengeReady h w = (Return true, w1) ->
  heartbeat h w
  = start_or_reload h (lit "Next challenge ready but Start not visible")
                    (logged NextChallengeReadyProceeding w1).
Proof.
  intros Hstop Hready.
  rewrite heartbeat_unfold, (not_labelled _ _ Hstop), Hready. reflexivity.
Qed.

(** The path of [heartbeat] when neither detector fires. *)
Lemma heartbeat_default_branch (h : Host) (w : World) :
  ~ button_labelled (document h w) (lit "stop session") ->
  isNextChallengeReady h w = (Return false, w) ->
  isSolving h w = (Return false, w) ->
  heartbeat h w
  = start_or_reload h (lit "session stopped and Start not visible") w.
Proof.
  intros Hstop Hnext Hsolving.
  rewrite heartbeat_unfold, (not_labelled _ _ Hstop), Hnext, Hsolving.
  reflexivity.
Qed.

(** C3. In a tick on a page with no stop button on which a "next
    challenge in" row parses to all zeros, [heartbeat] goes on to
    [tryStart] and, failing that, to the reload. [isSolving] is not
    consulted, whatever the page says about a challenge being solved:
    the tick logs none of its lines. With an enabled start button on
    the page that can be clicked, the first things the tick does after
    the two lines about the next challenge are the line "Starting
    session" and the click. *)
Theorem heartbeat_next_challenge_ready (h : Host) (w : World) :
  html_rooted (document h w) ->
  ~ button_labelled (document h w) (lit "stop session") ->
  next_challenge_due (document h w) = true ->
  heartbeat h w
  = start_or_reload h (lit "Next challenge ready but Start not visible")
      (logged NextChallengeReadyProceeding (logged NextChallengeIsReady w)) /\
  (exists evs, trace (snd (heartbeat h w)) = trace w ++ evs /\
               existsb is_solving_line evs = false) /\
  (forall b, findBtn_in (document h w) (lit "start session") = Some b ->
             disabled_of b = false ->
             has_click b = true ->
             exists evs,
               trace (snd (heartbeat h w))
               = trace w ++ [Log NextChallengeIsReady;
                             Log NextChallengeReadyProceeding;
                             Log StartingSession; Click b] ++ evs).
Proof.
  intros Hd Hstop Hdue.
  assert (Hready : isNextChallengeReady h w
                   = (Return true, logged NextChallengeIsReady w))
    by (rewrite (isNextChallengeReady_due h w Hd), Hdue; reflexivity).
  rewrite (heartbeat_ready_branch h w _ Hstop Hready).
  set (w2 := logged NextChallengeReadyProceeding (logged NextChallengeIsReady w)).
  set (reason := lit "Next challenge ready but Start not visible").
  split; [reflexivity|].
  destruct (start_or_reload_events h reason w2) as (evs & E & Hevs).
  split.
  - exists ([Log NextChallengeIsReady; Log NextChallengeReadyProceeding] ++ evs).
    split; [| exact Hevs].
    rewrite E. subst w2. simpl. now rewrite <- !app_assoc.
  - intros b Hb Hdis Hc. rewrite start_or_reload_unfold.
    change (document h w) with (document h w2) in Hb.
    destruct (tryStart_clicks h w2 b Hb Hdis Hc) as (k & r & l & _ & Et & _).
    rewrite Et.
    assert (Ep : trace (polled b k l w2)
                 = trace w ++ [Log NextChallengeIsReady;
                               Log NextChallengeReadyProceeding;
                               Log StartingSession; Click b]
                           ++ repeat (SetTimeout START_WAIT_STEPMS) k ++ [Log l])
      by (subst w2; simpl; now rewrite <- !app_assoc).
    destruct r; [cbn [snd]; rewrite Ep; eauto|].
    destruct (safeReload_events h reason (logged StartNotVisible (polled b k l w2)))
      as (e2 & E2 & _).
    rewrite E2. cbn [logged trace]. rewrite Ep.
    eexists. rewrite <- !app_assoc. cbn [app]. reflexivity.
Qed.

Lemma heartbeat_next_challenge_ready_witness :
  fst (isSolving (steady ready_solving_page) initial) = Return true /\
  heartbeat (steady ready_solving_page) initial
  = start_or_reload (steady ready_solving_page)
      (lit "Next challenge ready but Start not visible")
      (logged NextChallengeReadyProceeding (logged NextChallengeIsReady initial)) /\
  exists b evs,
    findBtn_in ready_solving_page (lit "start session") = Some b /\
    trace (snd (heartbeat (steady ready_solving_page) initial))
    = [Log NextChallengeIsReady; Log NextChallengeReadyProceeding;
       Log StartingSession; Click b] ++ evs.
Proof.
  assert (Hd : html_rooted (document (steady ready_solving_page) initial))
    by reflexivity.
  assert (Hstop : ~ button_labelled (document (steady ready_solving_page) initial)
                                    (lit "stop session"))
    by (intros H; apply findBtn_in_labelled in H; discriminate H).
  pose proof (heartbeat_next_challenge_ready (steady ready_solving_page) initial
                Hd Hstop eq_refl) as (E & _ & Hclick).
  split; [reflexivity|]. split; [exact E|].
  eexists. 
  destruct (Hclick _ eq_refl eq_refl eq_refl) as (evs & Eevs).
  exists evs. split; [reflexivity | exact Eevs].
Defined.

(** C10. When the button [findBtn("start session")] finds is disabled,
    [tryStart] returns false at once, having clicked nothing and waited
    for nothing: the world is left as it was, exactly as when no start
    button is found, and the caller goes on to the "start not visible"
    line and [safeReload]. *)
Theorem tryStart_disabled (h : Host) (w : World) (b : elem) :
  findBtn_in (document h w) (lit "start session") = Some b ->
  disabled_of b = true ->
  tryStart h w = (Return false, w) /\
  (forall h0 w0, findBtn_in (document h0 w0) (lit "start session") = None ->
                 tryStart h0 w0 = (Return false, w0)) /\
  (forall reason, start_or_reload h reason w
                  = safeReload h reason (logged StartNotVisible w)).
Proof.
  intros Hb Hdis.
  assert (E : tryStart h w = (Return false, w))
    by (rewrite tryStart_unfold, Hb, Hdis; reflexivity).
  split; [exact E|]. split.
  - intros h0 w0 Hnone. now rewrite tryStart_unfold, Hnone.
  - intros reason. now rewrite start_or_reload_unfold, E.
Qed.

Lemma tryStart_disabled_witness :
  tryStart (steady disabled_page) initial = (Return false, initial).
Proof.
  refine (proj1 (tryStart_disabled (steady disabled_page) initial
                   (mkElem (button_node true "Start Session")
                           [Element BODY (HTMLElement false)
                              [button_node true "Start Session"];
                            documentElement disabled_page])
                   _ _)); reflexivity.
Defined.

(** C6. On a page, [isSolving] returns true as soon as one element's
    text matches "finding a solution": with the line "Challenge
    running" when a scope shows a countdown above zero, and otherwise,
    so also when no scope shows a countdown that parses, with the line
    "Challenge appears active". It returns false only when no element
    matches. *)
Theorem isSolving_any_row (h : Host) (w : World) :
  html_rooted (document h w) ->
  (solving_rows (document h w) <> [] ->
   exists l, isSolving h w = (Return true, logged l w) /\
             (l = ChallengeAppearsActive \/ exists m1, l = ChallengeRunning m1)) /\
  (solving_rows (document h w) <> [] ->
   (forall row txt, In row (solving_rows (document h w)) ->
                    scope_text (document h w) row = Some txt ->
                    exec_time_left txt = None) ->
   isSolving h w = (Return true, logged ChallengeAppearsActive w)) /\
  (solving_rows (document h w) = [] -> isSolving h w = (Return false, w)) /\
  (forall w', isSolving h w = (Return false, w') ->
              solving_rows (document h w) = []).
Proof.
  intros Hd.
  assert (Hscope : forall row, In row (solving_rows (document h w)) ->
                     exists n, scope_in (document h w) row = Some n)
    by (intros row Hin; now apply solving_rows_scope).
  repeat split.
  - intros Hrows. rewrite isSolving_rows by exact Hrows.
    now apply isSolving_loop_true.
  - intros Hrows Hnone. rewrite isSolving_rows by exact Hrows.
    now apply isSolving_loop_unparsed.
  - apply isSolving_no_rows.
  - apply isSolving_false_no_rows.
Qed.

Lemma isSolving_any_row_witness :
  html_rooted (document (steady solving_page) initial) /\
  isSolving (steady solving_page) initial
  = (Return true, logged ChallengeAppearsActive initial).
Proof.
  assert (Hd : html_rooted (document (steady solving_page) initial))
    by reflexivity.
  split; [exact Hd|].
  refine (proj1 (proj2 (isSolving_any_row (steady solving_page) initial Hd)) _ _).
  - discriminate.
  - intros row txt Hin Htxt. simpl in Hin.
    destruct Hin as [<- | [<- | []]]; injection Htxt as <-; reflexivity.
Defined.

(** C8. [tryStart] always comes to an end, in one of three ways.
    It returns false without touching anything (no start button, or a
    disabled one). Or what it found cannot be clicked, and it raises at
    [start.click()] after the line "Starting session", with no wait.
    Or it clicks the start button once and then waits [k] times
    [START_WAIT_STEPMS], with [k] at most [START_WAIT_LOOPS]: it returns
    true after the first wait that ends on a page with a stop button,
    and when none of the [START_WAIT_LOOPS] waits does, it logs that the
    start is not confirmed and returns false, with no second click. *)
Theorem tryStart_bounded (h : Host) (w : World) :
  START_WAIT_LOOPS = 16%nat /\ START_WAIT_STEPMS = 500 /\
  (tryStart h w = (Return false, w) \/
   tryStart h w = (Throw TypeError, logged StartingSession w) \/
   exists b k r l,
     findBtn_in (document h w) (lit "start session") = Some b /\
     disabled_of b = false /\
     (k <= START_WAIT_LOOPS)%nat /\
     tryStart h w = (Return r, polled b k l w) /\
     ((r = true /\ l = SessionStarted /\ (1 <= k)%nat /\
       stop_seen h (suspensions w + k) = true) \/
      (r = false /\ l = StartNotConfirmed /\ k = START_WAIT_LOOPS))) /\
  (forall b,
     findBtn_in (document h w) (lit "start session") = Some b ->
     disabled_of b = false ->
     has_click b = true ->
     (forall i, (1 <= i <= START_WAIT_LOOPS)%nat ->
                stop_seen h (suspensions w + i) = false) ->
     tryStart h w = (Return false, polled b START_WAIT_LOOPS StartNotConfirmed w)).
Proof.
  split; [reflexivity|]. split; [reflexivity|]. split.
  - destruct (findBtn_in (document h w) (lit "start session")) as [b |] eqn:Eb.
    + destruct (disabled_of b) eqn:Ed.
      * left. now rewrite tryStart_unfold, Eb, Ed.
      * destruct (has_click b) eqn:Ec.
        -- right. right. destruct (tryStart_clicks h w b Eb Ed Ec)
             as (k & r & l & Hk & E & _ & Hend).
           exists b, k, r, l. auto.
        -- right. left. now apply tryStart_raises with (b := b).
    + left. now rewrite tryStart_unfold, Eb.
  - intros b Eb Ed Ec Hnever.
    destruct (tryStart_clicks h w b Eb Ed Ec) as (k & r & l & Hk & E & _ & Hend).
    destruct Hend as [(-> & -> & Hk1 & Hseen) | (-> & -> & ->)].
    + rewrite Hnever in Hseen by lia. discriminate.
    + exact E.
Qed.

Lemma tryStart_bounded_witness :
  exists b,
    tryStart (steady stopped_page) initial
    = (Return false, polled b START_WAIT_LOOPS StartNotConfirmed initial).
Proof.
  eexists.
  refine (proj2 (proj2 (proj2 (tryStart_bounded (steady stopped_page) initial)))
            _ _ _ _ _).
  - reflexivity.
  - reflexivity.
  - reflexivity.
  - intros i _. reflexivity.
Defined.

(** C4. [tryStart] is called on two paths of [heartbeat]: after the
    next challenge is found ready, and after neither detector fired. On
    either path, when it returns true the tick ends in the world
    [tryStart] left: [safeReload] is not called, the timestamp is
    untouched and no reload is among the events of the tick. *)
Theorem confirmed_start_no_reload (h : Host) (w w0 w1 w2 : World) :
  ~ button_labelled (document h w) (lit "stop session") ->
  (isNextChallengeReady h w = (Return true, w0) /\
   w1 = logged NextChallengeReadyProceeding w0) \/
  (isNextChallengeReady h w = (Return false, w0) /\
   isSolving h w0 = (Return false, w1)) ->
  tryStart h w1 = (Return true, w2) ->
  heartbeat h w = (Return tt, w2) /\ no_reload w w2.
Proof.
  intros Hstop Hpath Hstart.
  assert (H12 : no_reload w1 w2).
  { pose proof (tryStart_no_reload h w1) as L. now rewrite Hstart in L. }
  assert (H0 : logs_only w w0).
  { pose proof (isNextChallengeReady_logs_only h w) as L.
    destruct Hpath as [[E _] | [E _]]; now rewrite E in L. }
  rewrite heartbeat_unfold, (not_labelled _ _ Hstop).
  destruct Hpath as [[E ->] | [E Es]]; rewrite E.
  - rewrite start_or_reload_unfold, Hstart. split; [reflexivity|].
    eapply no_reload_trans; [| exact H12].
    apply logs_only_no_reload.
    eapply logs_only_trans; [exact H0 | apply log_logs_only].
  - rewrite Es, start_or_reload_unfold, Hstart. split; [reflexivity|].
    eapply no_reload_trans; [| exact H12].
    apply logs_only_no_reload.
    eapply logs_only_trans; [exact H0|].
    pose proof (isSolving_logs_only h w0) as L. now rewrite Es in L.
Qed.

Lemma confirmed_start_no_reload_witness :
  heartbeat (responsive stopped_page) initial
  = (Return tt, snd (tryStart (responsive stopped_page) initial)) /\
  reload_stamps (trace (snd (heartbeat (responsive stopped_page) initial))) = [].
Proof.
  split; [| reflexivity].
  refine (proj1 (confirmed_start_no_reload (responsive stopped_page)
                   initial initial initial
                   (snd (tryStart (responsive stopped_page) initial)) _ _ _)).
  - intros H. apply findBtn_in_labelled in H. discriminate H.
  - right. split; reflexivity.
  - reflexivity.
Defined.



Lemma start_or_reload_returns h reason w :
  (forall b, findBtn_in (document h w) (lit "start session") = Some b ->
             has_click b = true) ->
  exists w', start_or_reload h reason w = (Return tt, w').
Proof.
  intros Hclick. rewrite start_or_reload_unfold.
  destruct (tryStart_returns h w Hclick) as (r & w1 & ->).
  destruct r; [eauto|]. apply safeReload_never_throws.
Qed.

Lemma start_or_reload_raises h reason w b :
  findBtn_in (document h w) (lit "start session") = Some b ->
  has_click b = false ->
  start_or_reload h reason w = (Throw TypeError, logged StartingSession w).
Proof.
  intros Hb Hc. now rewrite start_or_reload_unfold, (tryStart_raises h w b Hb Hc).
Qed.

Lemma isSolving_returns h w :
  html_rooted (document h w) -> exists r w', isSolving h w = (Return r, w').
Proof.
  intros Hd. destruct (solving_rows (document h w)) as [| r rs] eqn:E.
  - rewrite isSolving_no_rows by exact E. eauto.
  - rewrite isSolving_rows by congruence.
    destruct (isSolving_loop_true h (solving_rows (document h w)) w)
      as (l & El & _).
    + intros row Hin. now apply solving_rows_scope.
    + rewrite El. eauto.
Qed.

(** C9, as it stands: on a page whose only [button] is an SVG element
    labelled "Start Session", [findBtn] finds it, its [disabled] is
    [undefined], and the tick raises a TypeError at [start.click()],
    having logged "Starting session". *)
Lemma heartbeat_raises_on_svg_button :
  html_rooted (document (steady svg_button_page) initial) /\
  option_map (fun b => textContent (self b))
             (findBtn_in svg_button_page (lit "start session"))
  = Some (lit "Start Session") /\
  tryStart (steady svg_button_page) initial
  = (Throw TypeError, logged StartingSession initial) /\
  heartbeat (steady svg_button_page) initial
  = (Throw TypeError, logged StartingSession initial).
Proof. repeat split. Qed.

(** C9, amended. On a page, a tick runs to its end and raises
    nothing, provided the element [findBtn("start session")] finds, if
    any, can be clicked (is an HTML element). The absence of an element
    is an ordinary answer: without a start button [tryStart] returns
    false, without matching rows the two detectors return false, and
    [safeReload] never raises, so an unconfirmed start ends in the
    reload or in the skip. When the element found cannot be clicked,
    [tryStart] raises at [start.click()], and so does a tick that
    reaches it. *)
Theorem heartbeat_never_throws (h : Host) (w : World) :
  html_rooted (document h w) ->
  (forall b, findBtn_in (document h w) (lit "start session") = Some b ->
             has_click b = true) ->
  (exists w', heartbeat h w = (Return tt, w')) /\
  (exists r w', isNextChallengeReady h w = (Return r, w')) /\
  (exists r w', isSolving h w = (Return r, w')) /\
  (next_rows (document h w) = [] ->
   isNextChallengeReady h w = (Return false, w)) /\
  (solving_rows (document h w) = [] -> isSolving h w = (Return false, w)) /\
  (forall h0 w0, findBtn_in (document h0 w0) (lit "start session") = None ->
                 tryStart h0 w0 = (Return false, w0)) /\
  (exists r w', tryStart h w = (Return r, w')) /\
  (forall h0 reason w0, exists w', safeReload h0 reason w0 = (Return tt, w')) /\
  (forall h0 w0 b,
     findBtn_in (document h0 w0) (lit "start session") = Some b ->
     has_click b = false ->
     tryStart h0 w0 = (Throw TypeError, logged StartingSession w0) /\
     (~ button_labelled (document h0 w0) (lit "stop session") ->
      isNextChallengeReady h0 w0 = (Return false, w0) ->
      isSolving h0 w0 = (Return false, w0) ->
      heartbeat h0 w0 = (Throw TypeError, logged StartingSession w0))).
Proof.
  intros Hd Hclick.
  split; [| split; [| split; [| split; [| split; [| split; [| split; [| split]]]]]]].
  - rewrite heartbeat_unfold.
    destruct (truthy _); [eauto|].
    destruct (isNextChallengeReady_returns h w Hd) as [-> | ->].
    + destruct (isSolving_returns h w Hd) as (r & w2 & E). rewrite E.
      destruct r; [eauto|].
      pose proof (isSolving_logs_only h w) as L. rewrite E in L.
      cbn [snd] in L. destruct L as (_ & Hs & _).
      apply start_or_reload_returns. intros b Hb. apply Hclick.
      unfold document in *. now rewrite <- Hs.
    + apply start_or_reload_returns. exact Hclick.
  - destruct (isNextChallengeReady_returns h w Hd) as [-> | ->]; eauto.
  - now apply isSolving_returns.
  - apply isNextChallengeReady_no_rows.
  - apply isSolving_no_rows.
  - intros h0 w0 Hnone. now rewrite tryStart_unfold, Hnone.
  - now apply tryStart_returns.
  - intros h0 reason w0. apply safeReload_never_throws.
  - intros h0 w0 b Hb Hc. split; [now apply tryStart_raises with (b := b)|].
    intros Hstop Hnext Hsolving.
    rewrite (heartbeat_default_branch h0 w0 Hstop Hnext Hsolving).
    now apply start_or_reload_raises with (b := b).
Qed.

Lemma heartbeat_never_throws_witness :
  html_rooted (document (steady ready_solving_page) initial) /\
  exists w', heartbeat (steady ready_solving_page) initial = (Return tt, w').
Proof.
  assert (Hd : html_rooted (document (steady ready_solving_page) initial))
    by reflexivity.
  split; [exact Hd|].
  refine (proj1 (heartbeat_never_throws (steady ready_solving_page) initial Hd _)).
  intros b Hb. vm_compute in Hb. injection Hb as <-. reflexivity.
Defined.

Section Timestamp.

Variable h : Host.
Hypothesis Hclock : clock_steady h.








Lemma keeps_guard_main n : respects keeps_guard (main h n).
Proof.
  apply main_respects; unfold keeps_guard.
  - auto.
  - auto.
  - intros w w' Hq Hg. eapply no_reload_guarded; eauto.
  - intros r w. now apply safeReload_guarded.
Qed.


End Timestamp.

Lemma guarded_initial : guarded initial.
Proof.
  split; [constructor|]. intros i j a b _ Ha. destruct i; discriminate.
Qed.

Lemma steady_clock_monotone d : clock_monotone (steady d).
Proof. intros i j Hij. unfold steady. cbn [clock]. lia. Qed.

Lemma clock_monotone_steady h : clock_monotone h -> clock_steady h.
Proof. intros Hm i. apply Hm. lia. Qed.








(* ================================================================= *)
(** ** Further properties: finding buttons *)

Lemma has_tag_single t n : has_tag [t] n = true -> tag_of n = Some t.
Proof.
  unfold has_tag. destruct (tag_of n) as [t' |]; [| discriminate].
  simpl. rewrite orb_false_r. intros E.
  now rewrite (internal_tag_dec_bl _ _ E).
Qed.

Lemma lower_unit_canon c : lower_unit (canon c) = lower_unit c.
Proof.
  unfold canon. destruct (is_lower c) eqn:El; [| reflexivity].
  unfold is_lower in El. apply andb_prop in El. destruct El as [H1 H2].
  apply N.leb_le in H1, H2. unfold lower_unit, is_upper.
  replace ((65 <=? c - 32) && (c - 32 <=? 90))%N with true
    by (symmetry; apply andb_true_intro; split; apply N.leb_le; lia).
  replace ((65 <=? c) && (c <=? 90))%N with false
    by (symmetry; apply andb_false_intro2; apply N.leb_gt; lia).
  replace (c =? 304)%N with false by (symmetry; apply N.eqb_neq; lia).
  replace (c =? 8490)%N with false by (symmetry; apply N.eqb_neq; lia).
  f_equal. lia.
Qed.

Lemma toLowerCase_canon s : toLowerCase (map canon s) = toLowerCase s.
Proof.
  unfold toLowerCase. induction s as [| c s IH]; simpl; [reflexivity|].
  now rewrite lower_unit_canon, IH.
Qed.

Lemma lower_unit_fixed c : flat_map lower_unit (lower_unit c) = lower_unit c.
Proof.
  unfold lower_unit at 2 3.
  destruct (is_upper c) eqn:Eu.
  - unfold is_upper in Eu. apply andb_prop in Eu. destruct Eu as [H1 H2].
    apply N.leb_le in H1, H2. simpl. unfold lower_unit, is_upper.
    replace ((65 <=? c + 32) && (c + 32 <=? 90))%N with false
      by (symmetry; apply andb_false_intro2; apply N.leb_gt; lia).
    replace (c + 32 =? 304)%N with false by (symmetry; apply N.eqb_neq; lia).
    replace (c + 32 =? 8490)%N with false by (symmetry; apply N.eqb_neq; lia).
    reflexivity.
  - destruct (c =? 304)%N eqn:E1; [reflexivity|].
    destruct (c =? 8490)%N eqn:E2; [reflexivity|].
    simpl. unfold lower_unit. now rewrite Eu, E1, E2.
Qed.

Lemma toLowerCase_idempotent s : toLowerCase (toLowerCase s) = toLowerCase s.
Proof.
  unfold toLowerCase. induction s as [| c s IH]; simpl; [reflexivity|].
  now rewrite flat_map_app, lower_unit_fixed, IH.
Qed.

Lemma ascii_only_canon s : ascii_only s = true -> ascii_only (map canon s) = true.
Proof.
  unfold ascii_only. rewrite !forallb_forall. intros H c Hc.
  apply in_map_iff in Hc. destruct Hc as (c0 & <- & Hc0).
  specialize (H c0 Hc0). apply N.ltb_lt in H. apply N.ltb_lt.
  unfold canon. destruct (is_lower c0); lia.
Qed.

(** X2. For a text to search for that is ASCII, as "start session" and
    "stop session" are, [findBtn] is blind to case on both sides:
    upper-casing or lower-casing the ASCII letters of the text does not
    change the button it finds, and upper-casing the ASCII letters of a
    label does not change whether the label matches. *)
Theorem findBtn_case_blind (d : Document) (txt : jsstring) :
  ascii_only txt = true ->
  ascii_only (map canon txt) = true /\
  findBtn_in d (map canon txt) = findBtn_in d txt /\
  findBtn_in d (toLowerCase txt) = findBtn_in d txt /\
  forall label,
    includes (toLowerCase (map canon label)) (toLowerCase txt)
    = includes (toLowerCase label) (toLowerCase txt).
Proof.
  intros Hascii. split; [now apply ascii_only_canon|].
  unfold findBtn_in. split; [| split].
  - now rewrite toLowerCase_canon.
  - now rewrite toLowerCase_idempotent.
  - intros label. now rewrite toLowerCase_canon.
Qed.

Lemma findBtn_case_blind_witness :
  map canon (lit "start session") = lit "START SESSION" /\
  findBtn_in two_buttons_page (lit "START SESSION")
  = findBtn_in two_buttons_page (lit "start session").
Proof.
  split; [reflexivity|].
  exact (proj1 (proj2 (findBtn_case_blind two_buttons_page
                         (lit "start session") eq_refl))).
Defined.

(* ================================================================= *)
(** ** Further properties: the detectors *)

Section MoreDetectors.

Variable h : Host.

Lemma isSolving_loop_one_line rows w :
  snd (isSolving_loop h rows w) = w \/
  exists l, isSolving_loop h rows w = (Return true, logged l w) /\
            is_solving_line (Log l) = true.
Proof.
  induction rows as [| row rest IH].
  - right. exists ChallengeAppearsActive. split; reflexivity.
  - rewrite isSolving_loop_cons.
    destruct (scope_in _ row) as [n |]; [| now left].
    destruct (exec_time_left _) as [m1 |]; [| exact IH]. cbv zeta.
    destruct (js_gt0 _); [| exact IH].
    right. exists (ChallengeRunning m1). split; reflexivity.
Qed.

Lemma isNextChallengeReady_loop_one_line rows w :
  snd (isNextChallengeReady_loop h rows w) = w \/
  isNextChallengeReady_loop h rows w
  = (Return true, logged NextChallengeIsReady w).
Proof.
  induction rows as [| row rest IH].
  - now left.
  - rewrite isNextChallengeReady_loop_cons.
    destruct (scope_in _ row) as [n |]; [| now left].
    destruct (exec_next_challenge _) as [g |]; [| exact IH].
    destruct (forallb _ _); [now right | exact IH].
Qed.

(** The loop of [isSolving] reports the first countdown above zero. *)
Lemma isSolving_loop_first_countdown rows w :
  (forall row, In row rows -> exists n, scope_in (document h w) row = Some n) ->
  isSolving_loop h rows w =
  (Return true,
   logged match first_countdown (document h w) rows with
          | Some m1 => ChallengeRunning m1
          | None => ChallengeAppearsActive
          end w).
Proof.
  intros Hscope. induction rows as [| row rest IH].
  - reflexivity.
  - rewrite isSolving_loop_cons. cbn [first_countdown].
    unfold row_countdown, scope_text.
    destruct (Hscope row (or_introl eq_refl)) as [n ->]. cbn [option_map].
    cbv iota beta.
    assert (IH' := IH (fun r Hr => Hscope r (or_intror Hr))).
    destruct (exec_time_left (textContent n)) as [m1 |]; [| exact IH'].
    unfold countdown_positive. cbv zeta.
    destruct (js_gt0 _); [reflexivity | exact IH'].
Qed.

End MoreDetectors.

(** X3. On any document the two detectors and [findBtn] only look: they
    click nothing, wait for nothing, read no clock, issue no reload and
    leave [lastReloadAt] alone. [isSolving] either leaves the world as
    it was (it returned false, or raised) or returns true having logged
    one line of its own; [isNextChallengeReady] either leaves the world
    as it was or returns true having logged that the next challenge is
    ready. *)
Theorem detectors_only_look (h : Host) (w : World) :
  (snd (isSolving h w) = w \/
   exists l, isSolving h w = (Return true, logged l w) /\
             is_solving_line (Log l) = true) /\
  (snd (isNextChallengeReady h w) = w \/
   isNextChallengeReady h w = (Return true, logged NextChallengeIsReady w)) /\
  (forall txt, findBtn h txt w = (Return (findBtn_in (document h w) txt), w)).
Proof.
  split; [| split].
  - destruct (solving_rows (document h w)) as [| r rs] eqn:E.
    + left. now rewrite isSolving_no_rows.
    + rewrite isSolving_rows by congruence. apply isSolving_loop_one_line.
  - rewrite isNextChallengeReady_unfold.
    destruct (_ =? _)%nat; [now left|].
    apply isNextChallengeReady_loop_one_line.
  - reflexivity.
Qed.

(** X4. On a page with no stop button and no "next challenge in" row
    that parses to all zeros, an element matching "finding a solution"
    makes the tick a skip: [heartbeat] returns after the one line of
    [isSolving], with no click, no wait and no reload, whether or not a
    start button is there to be clicked. *)
Theorem heartbeat_skips_while_solving (h : Host) (w : World) :
  html_rooted (document h w) ->
  ~ button_labelled (document h w) (lit "stop session") ->
  next_challenge_due (document h w) = false ->
  solving_rows (document h w) <> [] ->
  exists l, heartbeat h w = (Return tt, logged l w) /\
            is_solving_line (Log l) = true.
Proof.
  intros Hd Hstop Hnext Hrows.
  rewrite heartbeat_unfold, (not_labelled _ _ Hstop).
  rewrite (isNextChallengeReady_due h w Hd), Hnext.
  cbn [truthy]. cbv iota.
  rewrite isSolving_rows by exact Hrows.
  destruct (isSolving_loop_true h (solving_rows (document h w)) w)
    as (l & -> & Hl).
  - intros row Hin. now apply solving_rows_scope.
  - exists l. split; [reflexivity|].
    destruct Hl as [-> | [m1 ->]]; reflexivity.
Qed.

Lemma heartbeat_skips_while_solving_witness :
  truthy (findBtn_in (document (steady solving_page) initial)
                     (lit "start session")) = true /\
  exists l, heartbeat (steady solving_page) initial
            = (Return tt, logged l initial) /\
            is_solving_line (Log l) = true.
Proof.
  split; [reflexivity|].
  refine (heartbeat_skips_while_solving (steady solving_page) initial _ _ _ _).
  - reflexivity.
  - intros H. apply findBtn_in_labelled in H. discriminate H.
  - reflexivity.
  - discriminate.
Defined.

(** X5. On a page with an element matching "finding a solution",
    [isSolving] returns true and logs "Challenge running" with the
    countdown of the first matching row, in tree order, whose scope
    shows a "time left" above zero; when no row shows one (no countdown
    at all, or 00:00:00) it logs "Challenge appears active". *)
Theorem isSolving_reports_first_countdown (h : Host) (w : World) :
  html_rooted (document h w) ->
  solving_rows (document h w) <> [] ->
  isSolving h w =
  (Return true,
   logged match first_countdown (document h w) (solving_rows (document h w)) with
          | Some m1 => ChallengeRunning m1
          | None => ChallengeAppearsActive
          end w).
Proof.
  intros Hd Hrows. rewrite isSolving_rows by exact Hrows.
  apply isSolving_loop_first_countdown.
  intros row Hin. now apply solving_rows_scope.
Qed.

Lemma isSolving_reports_first_countdown_witness :
  isSolving (steady countdown_page) initial
  = (Return true, logged (ChallengeRunning (lit "00:05:13")) initial).
Proof.
  refine (isSolving_reports_first_countdown (steady countdown_page) initial _ _).
  - reflexivity.
  - discriminate.
Defined.

(* ================================================================= *)
(** ** Further properties: what the two patterns capture *)

Lemma digit_not_colon a : is_digit a = true -> (a =? 58)%N = false.
Proof.
  unfold is_digit. intros H. apply andb_prop in H. destruct H as [_ H].
  apply N.leb_le in H. apply N.eqb_neq. lia.
Qed.

Lemma digit_bounds a : is_digit a = true -> 0 <= Z.of_N a - 48 <= 9.
Proof.
  unfold is_digit. intros H. apply andb_prop in H. destruct H as [H1 H2].
  apply N.leb_le in H1, H2. lia.
Qed.

Lemma match_hms_shape s g rest :
  match_hms s = Some (g, rest) ->
  exists a b c d e f,
    g = [a; b; 58%N; c; d; 58%N; e; f] /\ s = g ++ rest /\
    is_digit a = true /\ is_digit b = true /\ is_digit c = true /\
    is_digit d = true /\ is_digit e = true /\ is_digit f = true.
Proof.
  unfold match_hms.
  destruct s as [| a [| b [| c1 [| c [| d [| c2 [| e [| f rest']]]]]]]];
    try discriminate.
  destruct (_ && _) eqn:E; [| discriminate].
  intros [= <- <-].
  do 7 (apply andb_prop in E; destruct E as [E ?]).
  repeat match goal with
         | H : (_ =? 58)%N = true |- _ => apply N.eqb_eq in H; subst
         end.
  exists a, b, c, d, e, f. repeat split; try assumption; reflexivity.
Qed.

Lemma Number_two_digits a b :
  is_digit a = true -> is_digit b = true ->
  Number [a; b] = Some (10 * (Z.of_N a - 48) + (Z.of_N b - 48)).
Proof.
  intros Ha Hb. unfold Number. cbn [digits_value]. rewrite Ha, Hb.
  f_equal; lia.
Qed.

Lemma split_colon_hms a b c d e f :
  is_digit a = true -> is_digit b = true -> is_digit c = true ->
  is_digit d = true -> is_digit e = true -> is_digit f = true ->
  split_colon [a; b; 58%N; c; d; 58%N; e; f] = [[a; b]; [c; d]; [e; f]].
Proof.
  intros Ha Hb Hc Hd He Hf. unfold split_colon. cbn [split_colon_acc].
  rewrite (digit_not_colon a Ha), (digit_not_colon b Hb),
    (digit_not_colon c Hc), (digit_not_colon d Hd),
    (digit_not_colon e He), (digit_not_colon f Hf).
  reflexivity.
Qed.

Lemma split_colon_hmsf a b c d e f x y :
  is_digit a = true -> is_digit b = true -> is_digit c = true ->
  is_digit d = true -> is_digit e = true -> is_digit f = true ->
  is_digit x = true -> is_digit y = true ->
  split_colon [a; b; 58%N; c; d; 58%N; e; f; 58%N; x; y]
  = [[a; b]; [c; d]; [e; f]; [x; y]].
Proof.
  intros Ha Hb Hc Hd He Hf Hx Hy. unfold split_colon. cbn [split_colon_acc].
  rewrite (digit_not_colon a Ha), (digit_not_colon b Hb),
    (digit_not_colon c Hc), (digit_not_colon d Hd),
    (digit_not_colon e He), (digit_not_colon f Hf),
    (digit_not_colon x Hx), (digit_not_colon y Hy).
  reflexivity.
Qed.

Lemma match_opt_field_shape s :
  match_opt_field s = [] \/
  exists x y, match_opt_field s = [58%N; x; y] /\
              is_digit x = true /\ is_digit y = true.
Proof.
  unfold match_opt_field.
  destruct s as [| c [| x [| y rest]]]; auto.
  destruct (_ && _) eqn:E; auto.
  do 2 (apply andb_prop in E; destruct E as [E ?]).
  apply N.eqb_eq in E. subst c. right. now exists x, y.
Qed.

Lemma time_left_from_hms s : forall prev m1,
  time_left_from prev s = Some m1 ->
  exists s' rest, match_hms s' = Some (m1, rest).
Proof.
  assert (Hat : forall prev s0 m1, time_left_at prev s0 = Some m1 ->
                  exists s' rest, match_hms s' = Some (m1, rest)).
  { intros prev s0 m1. unfold time_left_at.
    destruct (word_boundary prev s0); [| discriminate].
    destruct (match_ci _ s0) as [r |]; [| discriminate].
    destruct (match_hms (skip is_space r)) as [[g rest] |] eqn:E; [| discriminate].
    intros [= <-]. eauto. }
  induction s as [| c s IH]; intros prev m1; cbn [time_left_from].
  - destruct (time_left_at prev []) eqn:E; [| discriminate].
    intros [= <-]. eauto.
  - destruct (time_left_at prev (c :: s)) eqn:E.
    + intros [= <-]. eauto.
    + apply IH.
Qed.

Lemma exec_next_challenge_hms txt : forall g,
  exec_next_challenge txt = Some g ->
  exists s' m1 rest, match_hms s' = Some (m1, rest) /\
                     g = m1 ++ match_opt_field rest.
Proof.
  assert (Hat : forall s0 g, next_challenge_at s0 = Some g ->
                  exists s' m1 rest, match_hms s' = Some (m1, rest) /\
                                     g = m1 ++ match_opt_field rest).
  { intros s0 g. unfold next_challenge_at.
    destruct (match_ci _ s0) as [r |]; [| discriminate].
    destruct (match_hms _) as [[m1 rest] |] eqn:E; [| discriminate].
    intros [= <-]. eauto. }
  induction txt as [| c txt IH]; intros g; cbn [exec_next_challenge].
  - destruct (next_challenge_at []) eqn:E; [| discriminate].
    intros [= <-]. eauto.
  - destruct (next_challenge_at (c :: txt)) eqn:E.
    + intros [= <-]. eauto.
    + apply IH.
Qed.

(** X6. Whatever the text, a countdown captured by the "time left"
    pattern is eight code units, hh:mm:ss, whose three fields convert
    to numbers from 0 to 99 (never [NaN]), and the test
    [h + m2 + s > 0] fails on the capture 00:00:00 and on no other. *)
Theorem time_left_capture (txt m1 : jsstring) :
  exec_time_left txt = Some m1 ->
  List.length m1 = 8%nat /\
  (exists hh mm ss,
     map Number (split_colon m1) = [Some hh; Some mm; Some ss] /\
     0 <= hh <= 99 /\ 0 <= mm <= 99 /\ 0 <= ss <= 99) /\
  (countdown_positive m1 = false <-> m1 = lit "00:00:00").
Proof.
  intros E. apply time_left_from_hms in E.
  destruct E as (s' & rest & E). apply match_hms_shape in E.
  destruct E as (a & b & c & d & e & f & -> & _ & Ha & Hb & Hc & Hd & He & Hf).
  pose proof (digit_bounds a Ha). pose proof (digit_bounds b Hb).
  pose proof (digit_bounds c Hc). pose proof (digit_bounds d Hd).
  pose proof (digit_bounds e He). pose proof (digit_bounds f Hf).
  assert (Hparts : map Number (split_colon [a; b; 58%N; c; d; 58%N; e; f])
                   = [Some (10 * (Z.of_N a - 48) + (Z.of_N b - 48));
                      Some (10 * (Z.of_N c - 48) + (Z.of_N d - 48));
                      Some (10 * (Z.of_N e - 48) + (Z.of_N f - 48))]).
  { rewrite split_colon_hms by assumption. cbn [map].
    now rewrite !Number_two_digits by assumption. }
  split; [reflexivity|]. split.
  - do 3 eexists. split; [exact Hparts|]. lia.
  - unfold countdown_positive. rewrite Hparts. cbn [nth js_add js_gt0].
    rewrite Z.ltb_ge. split.
    + intros Hsum.
      assert (a = 48 /\ b = 48 /\ c = 48 /\ d = 48 /\ e = 48 /\ f = 48)%N
        as (-> & -> & -> & -> & -> & ->) by lia.
      reflexivity.
    + intros [= -> -> -> -> -> ->]. simpl. lia.
Qed.

Lemma time_left_capture_witness :
  countdown_positive (lit "00:00:00") = false <-> lit "00:00:00" = lit "00:00:00".
Proof.
  refine (proj2 (proj2 (time_left_capture (lit "Time left: 00:00:00")
                          (lit "00:00:00") _))).
  reflexivity.
Defined.

Lemma next_challenge_capture_facts (txt timeStr : jsstring) :
  exec_next_challenge txt = Some timeStr ->
  (List.length (split_colon timeStr) = 3%nat \/
   List.length (split_colon timeStr) = 4%nat) /\
  Forall (fun p => exists n, p = Some n /\ 0 <= n <= 99)
         (map Number (split_colon timeStr)) /\
  (all_zero timeStr = true <->
   timeStr = lit "00:00:00" \/ timeStr = lit "00:00:00:00").
Proof.
  intros E. apply exec_next_challenge_hms in E.
  destruct E as (s' & m1 & rest & E & ->). apply match_hms_shape in E.
  destruct E as (a & b & c & d & e & f & -> & _ & Ha & Hb & Hc & Hd & He & Hf).
  pose proof (digit_bounds a Ha). pose proof (digit_bounds b Hb).
  pose proof (digit_bounds c Hc). pose proof (digit_bounds d Hd).
  pose proof (digit_bounds e He). pose proof (digit_bounds f Hf).
  destruct (match_opt_field_shape rest) as [-> | (x & y & -> & Hx & Hy)].
  - rewrite app_nil_r. unfold all_zero.
    rewrite split_colon_hms by assumption. cbn [map List.length].
    rewrite !Number_two_digits by assumption.
    split; [now left|]. split.
    + repeat constructor; eexists; (split; [reflexivity | lia]).
    + cbn [forallb js_is0]. rewrite !andb_true_iff, !Z.eqb_eq. split.
      * intros (Z1 & Z2 & Z3 & _).
        assert (a = 48 /\ b = 48 /\ c = 48 /\ d = 48 /\ e = 48 /\ f = 48)%N
          as (-> & -> & -> & -> & -> & ->) by lia.
        now left.
      * intros [[= -> -> -> -> -> ->] | [=]]. simpl. auto.
  - pose proof (digit_bounds x Hx). pose proof (digit_bounds y Hy).
    cbn [app]. unfold all_zero.
    rewrite split_colon_hmsf by assumption. cbn [map List.length].
    rewrite !Number_two_digits by assumption.
    split; [now right|]. split.
    + repeat constructor; eexists; (split; [reflexivity | lia]).
    + cbn [forallb js_is0]. rewrite !andb_true_iff, !Z.eqb_eq. split.
      * intros (Z1 & Z2 & Z3 & Z4 & _).
        assert (a = 48 /\ b = 48 /\ c = 48 /\ d = 48 /\ e = 48 /\ f = 48
                /\ x = 48 /\ y = 48)%N
          as (-> & -> & -> & -> & -> & -> & -> & ->) by lia.
        now right.
      * intros [[=] | [= -> -> -> -> -> -> -> ->]]. simpl. auto.
Qed.

(** X7. Whatever the text, a time captured by the "next challenge in"
    pattern has three or four two-digit fields, each of which converts
    to a number from 0 to 99, and [parts.every(p => p === 0)] holds on
    the captures 00:00:00 and 00:00:00:00 and on no other. *)
Theorem next_challenge_capture (txt timeStr : jsstring) :
  exec_next_challenge txt = Some timeStr ->
  (List.length (split_colon timeStr) = 3%nat \/
   List.length (split_colon timeStr) = 4%nat) /\
  Forall (fun p => exists n, p = Some n /\ 0 <= n <= 99)
         (map Number (split_colon timeStr)) /\
  (all_zero timeStr = true <->
   timeStr = lit "00:00:00" \/ timeStr = lit "00:00:00:00").
Proof. apply next_challenge_capture_facts. Qed.

Lemma next_challenge_capture_witness :
  all_zero (lit "00:00:00:00") = true <->
  lit "00:00:00:00" = lit "00:00:00" \/ lit "00:00:00:00" = lit "00:00:00:00".
Proof.
  refine (proj2 (proj2 (next_challenge_capture
                          (lit "Next challenge in: 00:00:00:00")
                          (lit "00:00:00:00") _))).
  reflexivity.
Defined.

(* ================================================================= *)
(** ** Further properties: starting, clicking, waiting *)

(** X8. With an enabled start button on the page that can be clicked,
    [tryStart] returns true exactly when one of the [START_WAIT_LOOPS]
    pages it polls shows a stop button. It then stops at the first such page: it has waited
    as many times as that page's rank, and none of the pages before
    showed a stop button. Otherwise it has waited all
    [START_WAIT_LOOPS] times. *)
Theorem tryStart_confirms_iff (h : Host) (w : World) (b : elem) :
  findBtn_in (document h w) (lit "start session") = Some b ->
  disabled_of b = false ->
  has_click b = true ->
  exists k r l,
    tryStart h w = (Return r, polled b k l w) /\
    (r = true <->
     exists i, (1 <= i <= START_WAIT_LOOPS)%nat /\
               stop_seen h (suspensions w + i) = true) /\
    (r = true ->
     (1 <= k <= START_WAIT_LOOPS)%nat /\
     stop_seen h (suspensions w + k) = true /\
     forall i, (1 <= i < k)%nat -> stop_seen h (suspensions w + i) = false) /\
    (r = false -> k = START_WAIT_LOOPS).
Proof.
  intros Hb Hdis Hc.
  destruct (tryStart_clicks h w b Hb Hdis Hc)
    as (k & r & l & Hk & E & Hbefore & Hend).
  exists k, r, l. split; [exact E|].
  destruct Hend as [(-> & -> & Hk1 & Hseen) | (-> & -> & ->)].
  - split; [| split].
    + split; [| reflexivity]. intros _. exists k. split; [lia | exact Hseen].
    + intros _. split; [lia|]. split; [exact Hseen|].
      intros i Hi. apply Hbefore; [lia | left; lia].
    + discriminate.
  - split; [| split].
    + split; [discriminate|]. intros (i & Hi & Hseen).
      rewrite Hbefore in Hseen by (lia || now right). discriminate.
    + discriminate.
    + reflexivity.
Qed.

Lemma tryStart_confirms_iff_witness :
  let b := mkElem (button_node false "Start Session")
                  [Element BODY (HTMLElement false)
                     [button_node false "Start Session"];
                   documentElement stopped_page] in
  findBtn_in (document (responsive stopped_page) initial) (lit "start session")
  = Some b /\
  exists k r l,
    tryStart (responsive stopped_page) initial = (Return r, polled b k l initial) /\
    (r = true <->
     exists i, (1 <= i <= START_WAIT_LOOPS)%nat /\
               stop_seen (responsive stopped_page) (suspensions initial + i) = true).
Proof.
  cbv zeta. split; [reflexivity|].
  destruct (tryStart_confirms_iff (responsive stopped_page) initial _
              eq_refl eq_refl eq_refl) as (k & r & l & E & Hiff & _).
  exists k, r, l. split; [exact E | exact Hiff].
Defined.

Lemma in_repeat_SetTimeout e ms k : In e (repeat (SetTimeout ms) k) -> e = SetTimeout ms.
Proof. intros H. now apply repeat_spec in H. Qed.

Section Frame.

Variable h : Host.
Variable R : World -> World -> Prop.
Hypothesis R_refl : forall w, R w w.
Hypothesis R_trans : forall x y z, R x y -> R y z -> R x z.
Hypothesis R_logs : forall w w', logs_only w w' -> R w w'.
Hypothesis R_resumed : forall w, R w (resumed w).
Hypothesis R_tryStart : respects R (tryStart h).
Hypothesis R_safeReload : forall reason, respects R (safeReload h reason).

Lemma frame_logs_only {A} (c : M A) : respects logs_only c -> respects R c.
Proof. intros Hc w. apply R_logs, Hc. Qed.

Lemma start_or_reload_frame reason : respects R (start_or_reload h reason).
Proof.
  unfold start_or_reload.
  apply respects_bind; [exact R_trans | exact R_tryStart |].
  intros [|]; simpl.
  - now apply respects_ret.
  - apply respects_bind; [exact R_trans | | intros _; apply R_safeReload].
    apply frame_logs_only, log_logs_only.
Qed.

Lemma heartbeat_frame : respects R (heartbeat h).
Proof.
  unfold heartbeat.
  apply respects_bind;
    [exact R_trans | apply frame_logs_only, findBtn_logs_only |].
  intros stop. destruct (truthy stop).
  - apply respects_bind;
      [exact R_trans | apply frame_logs_only, log_logs_only |].
    intros _. now apply respects_ret.
  - apply respects_bind;
      [exact R_trans | apply frame_logs_only, isNextChallengeReady_logs_only |].
    intros [|].
    + apply respects_bind;
        [exact R_trans | apply frame_logs_only, log_logs_only |].
      intros _. apply start_or_reload_frame.
    + apply respects_bind;
        [exact R_trans | apply frame_logs_only, isSolving_logs_only |].
      intros [|]; [now apply respects_ret|].
      apply start_or_reload_frame.
Qed.

Lemma tick_frame : respects R (tick h).
Proof.
  intros w. unfold tick. cbn [snd].
  eapply R_trans; [apply (R_resumed w) | apply heartbeat_frame].
Qed.

Lemma main_frame n : respects R (main h n).
Proof.
  unfold main.
  apply respects_bind;
    [exact R_trans | apply frame_logs_only, log_logs_only |].
  intros _. apply respects_bind; [exact R_trans | exact tick_frame |].
  intros _. induction n as [| n IH]; simpl.
  - now apply respects_ret.
  - apply respects_bind; [exact R_trans | exact IH |].
    intros _. exact tick_frame.
Qed.

End Frame.

Lemma found_start_button d b :
  findBtn_in d (lit "start session") = Some b -> disabled_of b = false ->
  start_button b.
Proof.
  unfold findBtn_in. intros E Hdis. apply find_some in E. destruct E as [Hin Hb].
  apply filter_In in Hin. destruct Hin as [_ Htag].
  split; [now apply has_tag_single|]. split; [exact Hdis | exact Hb].
Qed.

(** X9. In every run of the script, from the banner through any number
    of ticks and on any pages, whatever is clicked is an enabled button
    whose label contains "start session": the script clicks nothing
    else. *)
Theorem run_clicks_start_only (h : Host) (n : nat) :
  clicks_start_only (trace (snd (main h n initial))).
Proof.
  apply (main_frame h
           (fun w w' => clicks_start_only (trace w) ->
                        clicks_start_only (trace w'))).
  - auto.
  - auto.
  - intros w w' (_ & _ & _ & ls & E) Hw b Hin. rewrite E in Hin.
    apply in_app_or in Hin. destruct Hin as [Hin | Hin]; [now apply Hw|].
    apply in_map_iff in Hin. destruct Hin as (l & [=] & _).
  - intros w Hw. exact Hw.
  - intros w Hw b' Hin. rewrite tryStart_unfold in Hin.
    destruct (findBtn_in (document h w) (lit "start session")) as [b |] eqn:Eb;
      [| now apply Hw].
    destruct (disabled_of b) eqn:Ed; [now apply Hw|].
    destruct (has_click b).
    2:{ cbn [snd logged trace] in Hin. apply in_app_or in Hin.
        destruct Hin as [Hin | [[=] | []]]. now apply Hw. }
    destruct (tryStart_loop_spec h START_WAIT_LOOPS
                (mkWorld (lastReloadAt w) (suspensions w) (clock_reads w)
                         (trace w ++ [Log StartingSession; Click b])))
      as (k & r & l & _ & E & _).
    rewrite E in Hin. cbn [snd trace] in Hin.
    apply in_app_or in Hin. destruct Hin as [Hin | Hin].
    + apply in_app_or in Hin. destruct Hin as [Hin | Hin]; [now apply Hw|].
      destruct Hin as [[=] | [[= <-] | []]].
      eapply found_start_button; eauto.
    + apply in_app_or in Hin. destruct Hin as [Hin | [[=] | []]].
      apply in_repeat_SetTimeout in Hin. discriminate.
  - intros reason w Hw b Hin.
    destruct (Z.lt_ge_cases (clock h (clock_reads w) - lastReloadAt w)
                            RELOAD_GUARD_MS).
    + rewrite safeReload_blocked in Hin by assumption. cbn [snd] in Hin.
      unfold reload_skipped in Hin. cbn [trace] in Hin.
      apply in_app_or in Hin. destruct Hin as [Hin | [[=] | []]].
      now apply Hw.
    + rewrite safeReload_allowed in Hin by assumption. cbn [snd] in Hin.
      unfold reloaded in Hin. cbn [trace] in Hin.
      apply in_app_or in Hin. destruct Hin as [Hin | [[=] | [[=] | []]]].
      now apply Hw.
  - intros b [].
Qed.

Lemma clicks_in_app a b : clicks_in (a ++ b) = (clicks_in a + clicks_in b)%nat.
Proof. unfold clicks_in. now rewrite filter_app, length_app. Qed.

Lemma waited_app a b : waited (a ++ b) = waited a + waited b.
Proof.
  induction a as [| e a IH]; simpl; [reflexivity|].
  destruct e; rewrite IH; lia.
Qed.

Lemma reloads_in_app a b : reloads_in (a ++ b) = (reloads_in a + reloads_in b)%nat.
Proof. unfold reloads_in. now rewrite reload_stamps_app, length_app. Qed.

Lemma spends_seq c1 t1 r1 c2 t2 r2 x y z :
  spends c1 t1 r1 x y -> spends c2 t2 r2 y z ->
  spends (c1 + c2) (t1 + t2) (r1 + r2) x z.
Proof.
  intros (e1 & E1 & C1 & T1 & R1) (e2 & E2 & C2 & T2 & R2).
  exists (e1 ++ e2). rewrite E2, E1, app_assoc.
  rewrite clicks_in_app, waited_app, reloads_in_app.
  split; [reflexivity|]. lia.
Qed.

Lemma spends_more c t r c' t' r' x y :
  spends c t r x y -> (c <= c')%nat -> t <= t' -> (r <= r')%nat ->
  spends c' t' r' x y.
Proof.
  intros (e & E & C & T & Rl) Hc Ht Hr. exists e. split; [exact E|]. lia.
Qed.

Lemma logs_only_spends w w' : logs_only w w' -> spends 0 0 0 w w'.
Proof.
  intros (_ & _ & _ & ls & E). exists (map Log ls). split; [exact E|].
  assert (H : clicks_in (map Log ls) = 0%nat /\ waited (map Log ls) = 0 /\
              reloads_in (map Log ls) = 0%nat).
  { clear E. induction ls as [| l ls IH]; [now repeat split|].
    unfold clicks_in, reloads_in in *. simpl. exact IH. }
  destruct H as (-> & -> & ->). lia.
Qed.

Lemma repeat_SetTimeout_spent ms k :
  clicks_in (repeat (SetTimeout ms) k) = 0%nat /\
  waited (repeat (SetTimeout ms) k) = ms * Z.of_nat k /\
  reloads_in (repeat (SetTimeout ms) k) = 0%nat.
Proof.
  induction k as [| k (IH1 & IH2 & IH3)]; [simpl; repeat split; lia|].
  unfold clicks_in, reloads_in in *. cbn [repeat filter is_click waited reload_stamps].
  rewrite IH2. repeat split; [exact IH1 | lia | exact IH3].
Qed.

Lemma tryStart_spends h w :
  spends 1 (START_WAIT_STEPMS * Z.of_nat START_WAIT_LOOPS) 0 w (snd (tryStart h w)).
Proof.
  assert (Hnone : spends 1 (START_WAIT_STEPMS * Z.of_nat START_WAIT_LOOPS) 0 w w).
  { exists []. rewrite app_nil_r. unfold clicks_in, reloads_in. simpl.
    split; [reflexivity|]. unfold START_WAIT_STEPMS, START_WAIT_LOOPS. lia. }
  destruct (findBtn_in (document h w) (lit "start session")) as [b |] eqn:Eb.
  - destruct (disabled_of b) eqn:Ed.
    + rewrite tryStart_unfold, Eb, Ed. exact Hnone.
    + destruct (has_click b) eqn:Ec.
      * destruct (tryStart_clicks h w b Eb Ed Ec) as (k & r & l & Hk & E & _).
        rewrite E. cbn [snd]. eexists. split; [reflexivity|].
        destruct (repeat_SetTimeout_spent START_WAIT_STEPMS k) as (C & T & Rl).
        rewrite !clicks_in_app, !waited_app, !reloads_in_app, C, T, Rl.
        unfold clicks_in, reloads_in. cbn -[Z.mul Z.of_nat].
        unfold START_WAIT_STEPMS, START_WAIT_LOOPS in *. lia.
      * rewrite (tryStart_raises h w b Eb Ec). cbn [snd].
        eapply spends_more;
          [exact (logs_only_spends _ _ (log_logs_only StartingSession w))
          | lia | unfold START_WAIT_STEPMS, START_WAIT_LOOPS; lia | lia].
  - rewrite tryStart_unfold, Eb. exact Hnone.
Qed.

Lemma safeReload_spends h reason w : spends 0 0 1 w (snd (safeReload h reason w)).
Proof.
  destruct (Z.lt_ge_cases (clock h (clock_reads w) - lastReloadAt w) RELOAD_GUARD_MS).
  - rewrite safeReload_blocked by assumption. eexists. split; [reflexivity|].
    unfold clicks_in, reloads_in. simpl. lia.
  - rewrite safeReload_allowed by assumption. eexists. split; [reflexivity|].
    unfold clicks_in, reloads_in. simpl. lia.
Qed.

Lemma start_or_reload_spends h reason w :
  spends 1 (START_WAIT_STEPMS * Z.of_nat START_WAIT_LOOPS) 1 w
         (snd (start_or_reload h reason w)).
Proof.
  rewrite start_or_reload_unfold.
  pose proof (tryStart_spends h w) as Ht.
  destruct (tryStart h w) as [[[|] | e] w1]; cbn [snd] in *.
  - eapply spends_more; [exact Ht | lia | lia | lia].
  - pose proof (logs_only_spends _ _ (log_logs_only StartNotVisible w1)) as Hl.
    pose proof (safeReload_spends h reason (logged StartNotVisible w1)) as Hs.
    eapply spends_more;
      [exact (spends_seq _ _ _ _ _ _ _ _ _ Ht (spends_seq _ _ _ _ _ _ _ _ _ Hl Hs))
      | lia | lia | lia].
  - eapply spends_more; [exact Ht | lia | lia | lia].
Qed.

(** X10. Whatever the pages and the clock, one [heartbeat] clicks at
    most once, waits at most [START_WAIT_LOOPS] times [START_WAIT_STEPMS],
    8 seconds in all, and issues at most one reload. *)
Theorem heartbeat_budget (h : Host) (w : World) :
  START_WAIT_STEPMS * Z.of_nat START_WAIT_LOOPS = 8000 /\
  spends 1 (START_WAIT_STEPMS * Z.of_nat START_WAIT_LOOPS) 1
         w (snd (heartbeat h w)).
Proof.
  split; [reflexivity|].
  assert (Hpos : 0 <= START_WAIT_STEPMS * Z.of_nat START_WAIT_LOOPS)
    by (unfold START_WAIT_STEPMS, START_WAIT_LOOPS; lia).
  assert (Hlogs : forall x y, logs_only x y ->
            spends 1 (START_WAIT_STEPMS * Z.of_nat START_WAIT_LOOPS) 1 x y)
    by (intros x y L; eapply spends_more;
        [exact (logs_only_spends _ _ L) | lia | lia | lia]).
  assert (Hbranch : forall reason x y, logs_only x y ->
            spends 1 (START_WAIT_STEPMS * Z.of_nat START_WAIT_LOOPS) 1
                   x (snd (start_or_reload h reason y))).
  { intros reason x y L. eapply spends_more;
      [exact (spends_seq _ _ _ _ _ _ _ _ _ (logs_only_spends _ _ L)
                (start_or_reload_spends h reason y)) | lia | lia | lia]. }
  rewrite heartbeat_unfold.
  destruct (truthy _); [apply Hlogs, log_logs_only|].
  pose proof (isNextChallengeReady_logs_only h w) as L1.
  destruct (isNextChallengeReady h w) as [[[|] | e] w1]; cbn [snd] in L1.
  - apply Hbranch. eapply logs_only_trans; [exact L1 | apply log_logs_only].
  - pose proof (isSolving_logs_only h w1) as L2.
    destruct (isSolving h w1) as [[[|] | e] w2]; cbn [snd] in L2.
    + apply Hlogs. eapply logs_only_trans; eauto.
    + apply Hbranch. eapply logs_only_trans; eauto.
    + apply Hlogs. eapply logs_only_trans; eauto.
  - now apply Hlogs.
Qed.

(* ================================================================= *)
(** ** Further properties: rows and their scopes *)

Lemma node_induction (P : node -> Prop) :
  (forall d, P (Text d)) ->
  (forall t dis cs, Forall P cs -> P (Element t dis cs)) ->
  forall n, P n.
Proof.
  intros Htext Helem. fix IH 1. intros [t dis cs | d].
  - apply Helem. induction cs as [| c cs IHcs]; constructor.
    + apply IH.
    + exact IHcs.
  - apply Htext.
Qed.

Lemma infix_refl s : infix s s.
Proof. exists [], []. now rewrite app_nil_r. Qed.

Lemma infix_trans s t u : infix s t -> infix t u -> infix s u.
Proof.
  intros (p1 & q1 & ->) (p2 & q2 & ->).
  exists (p2 ++ p1), (q1 ++ q2). now rewrite <- !app_assoc.
Qed.

Lemma infix_child c cs :
  In c cs -> infix (textContent c) (flat_map textContent cs).
Proof.
  intros Hin. apply in_split in Hin. destruct Hin as (l1 & l2 & ->).
  exists (flat_map textContent l1), (flat_map textContent l2).
  now rewrite flat_map_app.
Qed.

(** The text of an element lies within the text of each of its
    ancestors. *)
Lemma elements_of_infix n : forall anc e,
  In e (elements_of anc n) ->
  (forall a, In a anc -> infix (textContent n) (textContent a)) ->
  forall a, In a (self e :: ancestors e) ->
            infix (textContent (self e)) (textContent a).
Proof.
  induction n as [d | t dis cs IH] using node_induction; intros anc e Hin Hanc a Ha.
  - contradiction.
  - cbn [elements_of] in Hin. destruct Hin as [<- | Hin].
    + cbn [self ancestors] in *. destruct Ha as [<- | Ha];
        [apply infix_refl | now apply Hanc].
    + apply in_flat_map in Hin. destruct Hin as (c & Hc & Hin).
      rewrite Forall_forall in IH.
      apply (IH c Hc (Element t dis cs :: anc) e Hin); [| exact Ha].
      intros a' [<- | Ha'].
      * cbn [textContent]. now apply infix_child.
      * eapply infix_trans; [| apply Hanc, Ha'].
        cbn [textContent]. now apply infix_child.
Qed.

Lemma match_ci_app pat : forall s r post,
  match_ci pat s = Some r -> match_ci pat (s ++ post) = Some (r ++ post).
Proof.
  induction pat as [| p pat IH]; intros s r post; cbn [match_ci].
  - now intros [= ->].
  - destruct s as [| c s]; [discriminate|]. cbn [app].
    destruct (ci_eqb p c); [apply IH | discriminate].
Qed.

Lemma test_ci_app_r pat s post :
  test_ci pat s = true -> test_ci pat (s ++ post) = true.
Proof.
  induction s as [| c s IH]; cbn [test_ci].
  - destruct (match_ci pat []) as [r |] eqn:E; [| discriminate].
    intros _. pose proof (match_ci_app pat [] r post E) as E'.
    cbn [app] in *. destruct post as [| c post]; cbn [test_ci]; now rewrite E'.
  - destruct (match_ci pat (c :: s)) as [r |] eqn:E.
    + intros _. pose proof (match_ci_app pat (c :: s) r post E) as E'.
      cbn [app] in *. cbn [test_ci]. now rewrite E'.
    + intros H. cbn [app test_ci].
      destruct (match_ci pat (c :: s ++ post)); [reflexivity | now apply IH].
Qed.

Lemma test_ci_app_l pat pre s :
  test_ci pat s = true -> test_ci pat (pre ++ s) = true.
Proof.
  intros H. induction pre as [| c pre IH]; [exact H|].
  cbn [app test_ci]. destruct (match_ci pat (c :: pre ++ s)); [reflexivity | exact IH].
Qed.

Lemma test_ci_infix pat s t :
  infix s t -> test_ci pat s = true -> test_ci pat t = true.
Proof.
  intros (pre & post & ->) H. now apply test_ci_app_l, test_ci_app_r.
Qed.

Lemma row_scope_infix d sel row :
  has_tag sel (documentElement d) = false ->
  In row (querySelectorAll d sel) ->
  exists n, scope_in d row = Some n /\
            infix (textContent (self row)) (textContent n).
Proof.
  intros Hroot Hin. unfold querySelectorAll in Hin.
  apply filter_In in Hin. destruct Hin as [Hin Htag].
  pose proof (elements_of_infix _ _ _ Hin (fun a (F : In a []) => match F with end))
    as Hinf.
  apply elements_of_self_or_below in Hin.
  destruct Hin as [-> | Hne]; [simpl in Htag; congruence|].
  unfold scope_in, orelse.
  destruct (closest DIV row) as [n |] eqn:Ec.
  - exists n. split; [reflexivity|]. apply Hinf.
    unfold closest in Ec. now apply find_some in Ec.
  - unfold parentElement. destruct (ancestors row) as [| p ps] eqn:Ea;
      [congruence|].
    exists p. split; [reflexivity|]. apply Hinf. simpl. auto.
Qed.

(** X11. On a page, the scope in which a detector looks for a time
    always holds the row's own text: the row's text occurs in the
    scope's text, so the scope of a row of [isSolving] itself matches
    "finding a solution" and the scope of a row of
    [isNextChallengeReady] itself matches "next challenge in". *)
Theorem scope_holds_row (d : Document) (row : elem) :
  html_rooted d ->
  (In row (solving_rows d) ->
   exists n, scope_in d row = Some n /\
             infix (textContent (self row)) (textContent n) /\
             test_ci (lit "finding a solution") (textContent n) = true) /\
  (In row (next_rows d) ->
   exists n, scope_in d row = Some n /\
             infix (textContent (self row)) (textContent n) /\
             test_ci (lit "next challenge in") (textContent n) = true).
Proof.
  intros Hd. split; intros Hin; apply filter_In in Hin;
    destruct Hin as [Hin Htest].
  - destruct (row_scope_infix d [DIV; SPAN; LI; SECTION] row) as (n & Hn & Hinf);
      [now apply html_root_not_selected | exact Hin |].
    exists n. split; [exact Hn|]. split; [exact Hinf|].
    eapply test_ci_infix; eauto.
  - destruct (row_scope_infix d [DIV; SPAN] row) as (n & Hn & Hinf);
      [now apply html_root_not_selected | exact Hin |].
    exists n. split; [exact Hn|]. split; [exact Hinf|].
    eapply test_ci_infix; eauto.
Qed.

Lemma scope_holds_row_witness :
  let row := mkElem (Element SPAN (HTMLElement false) [text "Finding a solution"])
                    [Element DIV (HTMLElement false)
                       [Element SPAN (HTMLElement false) [text "Finding a solution"];
                        text " Time left: 00:05:13"];
                     Element BODY (HTMLElement false)
                       [Element DIV (HTMLElement false)
                          [Element SPAN (HTMLElement false) [text "Finding a solution"];
                           text " Time left: 00:05:13"];
                        button_node false "Start Session"];
                     documentElement countdown_page] in
  exists n, scope_in countdown_page row = Some n /\
            infix (textContent (self row)) (textContent n) /\
            test_ci (lit "finding a solution") (textContent n) = true.
Proof.
  cbv zeta.
  refine (proj1 (scope_holds_row countdown_page _ _) _).
  - reflexivity.
  - simpl. auto.
Defined.

(* ================================================================= *)
(** ** Further properties: the reloads of a run *)

Lemma spaced_chain stamps :
  spaced stamps ->
  forall k i a b,
    nth_error stamps i = Some a -> nth_error stamps (i + k) = Some b ->
    RELOAD_GUARD_MS * Z.of_nat k <= b - a.
Proof.
  intros Hs. induction k as [| k IH]; intros i a b Ha Hb.
  - rewrite Nat.add_0_r, Ha in Hb. injection Hb as <-. simpl. lia.
  - assert (Hlt : (i + k < List.length stamps)%nat).
    { assert (i + S k < List.length stamps)%nat
        by (apply nth_error_Some; congruence). lia. }
    destruct (nth_error stamps (i + k)) as [c |] eqn:Ec;
      [| apply nth_error_Some in Hlt; congruence].
    specialize (IH i a c Ha Ec).
    assert (RELOAD_GUARD_MS <= b - c)
      by (apply (Hs (i + k)%nat (i + S k)%nat); [lia | exact Ec | exact Hb]).
    unfold RELOAD_GUARD_MS in *. lia.
Qed.

(** X12. In a run of the script under a clock that does not run
    backwards, reloads are rate-limited: the [k]-th reload after a
    given one is stamped at least [k] guard windows later, so any [k+1]
    reloads span at least [k] minutes. *)
Theorem reloads_rate_limited (h : Host) (Hclock : clock_monotone h)
        (n i k : nat) (a b : Z) :
  nth_error (reload_stamps (trace (snd (main h n initial)))) i = Some a ->
  nth_error (reload_stamps (trace (snd (main h n initial)))) (i + k) = Some b ->
  RELOAD_GUARD_MS * Z.of_nat k <= b - a.
Proof.
  apply spaced_chain.
  apply (keeps_guard_main h (clock_monotone_steady h Hclock) n initial),
    guarded_initial.
Qed.

Lemma reloads_rate_limited_witness :
  RELOAD_GUARD_MS * Z.of_nat 1 <= 1175000 - 1050000.
Proof.
  refine (reloads_rate_limited (steady blank_page)
            (steady_clock_monotone blank_page) 4 0 1 1050000 1175000 _ _);
    reflexivity.
Defined.

Lemma seasoned_safeReload h reason w :
  clock_monotone h -> seasoned w -> seasoned (snd (safeReload h reason w)).
Proof.
  intros Hclock [Hpos Hall].
  destruct (Z.lt_ge_cases (clock h (clock_reads w) - lastReloadAt w) RELOAD_GUARD_MS)
    as [Hlt | Hge].
  - rewrite safeReload_blocked by assumption. unfold seasoned. simpl.
    rewrite reload_stamps_app. simpl. rewrite app_nil_r. now split.
  - rewrite safeReload_allowed by assumption. unfold seasoned. simpl.
    rewrite reload_stamps_app. simpl.
    assert (clock h (clock_reads w) <= clock h (S (S (clock_reads w))))
      by (apply Hclock; lia).
    unfold RELOAD_GUARD_MS in *. split; [lia|].
    apply Forall_app. split; [exact Hall|]. repeat constructor. lia.
Qed.

(** X13. [lastReloadAt] starts at 0 and stands for "never reloaded"
    only against a clock that is past the guard window: in a run under
    a clock that does not run backwards, [lastReloadAt] is never
    negative and no reload is stamped earlier than [RELOAD_GUARD_MS],
    so while the clock reads less than that every request is skipped. *)
Theorem no_reload_before_guard (h : Host) (Hclock : clock_monotone h) (n : nat) :
  seasoned (snd (main h n initial)) /\
  forall reason w,
    seasoned w -> clock h (clock_reads w) < RELOAD_GUARD_MS ->
    safeReload h reason w = (Return tt, reload_skipped w).
Proof.
  split.
  - apply (main_respects h (fun w w' => seasoned w -> seasoned w')).
    + auto.
    + auto.
    + intros w w' (El & evs & Et & Hq) [Hpos Hall]. unfold seasoned.
      rewrite Et, reload_stamps_app, (reload_stamps_quiet _ Hq), app_nil_r, El.
      now split.
    + intros r w. now apply seasoned_safeReload.
    + split; [simpl; lia | constructor].
  - intros reason w [Hpos _] Hlt. apply safeReload_blocked. lia.
Qed.

Lemma no_reload_before_guard_witness :
  clock_monotone (at_time 59999) /\
  seasoned (snd (main (at_time 59999) 3 initial)) /\
  reload_stamps (trace (snd (main (at_time 59999) 3 initial))) = [].
Proof.
  assert (Hc : clock_monotone (at_time 59999))
    by (intros i j _; simpl; lia).
  split; [exact Hc|]. split; [| reflexivity].
  exact (proj1 (no_reload_before_guard (at_time 59999) Hc 3)).
Defined.

(** X14. On a page, [isNextChallengeReady] returns true exactly when
    the scope of some "next challenge in" row shows, as the first time
    after those words, 00:00:00 or 00:00:00:00. *)
Theorem isNextChallengeReady_iff (h : Host) (w : World) :
  html_rooted (document h w) ->
  (fst (isNextChallengeReady h w) = Return true <->
   exists row txt,
     In row (next_rows (document h w)) /\
     scope_text (document h w) row = Some txt /\
     (exec_next_challenge txt = Some (lit "00:00:00") \/
      exec_next_challenge txt = Some (lit "00:00:00:00"))).
Proof.
  intros Hd. rewrite (isNextChallengeReady_due h w Hd).
  unfold next_challenge_due. split.
  - destruct (existsb _ _) eqn:E; [| discriminate]. intros _.
    apply existsb_exists in E. destruct E as (row & Hin & Hdue).
    unfold row_due in Hdue.
    destruct (scope_text (document h w) row) as [txt |] eqn:Et; [| discriminate].
    destruct (exec_next_challenge txt) as [g |] eqn:Eg; [| discriminate].
    exists row, txt. split; [exact Hin|]. split; [exact Et|].
    destruct (proj1 (proj2 (proj2 (next_challenge_capture_facts txt g Eg))) Hdue)
      as [-> | ->]; auto.
  - intros (row & txt & Hin & Et & Hg).
    assert (E : existsb (row_due (document h w)) (next_rows (document h w)) = true).
    { apply existsb_exists. exists row. split; [exact Hin|].
      unfold row_due. rewrite Et. destruct Hg as [-> | ->]; reflexivity. }
    now rewrite E.
Qed.

Lemma isNextChallengeReady_iff_witness :
  fst (isNextChallengeReady (steady ready_solving_page) initial) = Return true <->
  exists row txt,
    In row (next_rows (document (steady ready_solving_page) initial)) /\
    scope_text (document (steady ready_solving_page) initial) row = Some txt /\
    (exec_next_challenge txt = Some (lit "00:00:00") \/
     exec_next_challenge txt = Some (lit "00:00:00:00")).
Proof.
  refine (isNextChallengeReady_iff (steady ready_solving_page) initial _).
  reflexivity.
Defined.
